(** * Haru application bootstrap: a shallow embedding of [src/core/Application.ts]

    The development follows the TypeScript class [Application]: its
    constructor, [initialize], [start], [getAvailableRoutes], [close] and
    [getPortFromProperties].  The class mutates itself, its router, the
    process-wide instance cache and the host's HTTP server, and it may
    raise exceptions; all of that is threaded through a small state and
    exception monad [M] over an explicit [World].

    Objects that are shared by reference (applications, servers) live in
    heaps indexed by an object identifier; a method receives the reference
    [this] exactly as the JavaScript method does. *)

From Stdlib Require Import ZArith Ascii String List.
From stdpp Require Import base option list gmap fin_maps strings pretty.

Local Open Scope string_scope.
Local Open Scope list_scope.

(** ** JavaScript values used by the class *)

(** A JavaScript number as far as ports are concerned: an integer or [NaN].
    Integers are kept exact (the host rounds beyond 2^53) and the sign of
    zero is not tracked.  Numbers that are neither are not represented; as
    a port they are refused the way [NaN] is. *)
Inductive JSNumber : Type :=
| NaN
| Num (z : Z).

(** Truthiness of a [string | undefined] value: [undefined] and the empty
    string are falsy, every other string is truthy. *)
Definition truthy (v : option string) : bool :=
  match v with
  | None => false
  | Some EmptyString => false
  | Some (String _ _) => true
  end.

(** [a ?? b]: the left operand unless it is [undefined]. *)
Definition nullish_coalesce {A : Type} (a : option A) (b : A) : A :=
  match a with
  | Some v => v
  | None => b
  end.

Infix "??" := nullish_coalesce (at level 45, left associativity).

(** A parameter with a default value: the default applies to [undefined]. *)
Definition default_param {A : Type} (dflt : A) (arg : option A) : A :=
  match arg with
  | Some v => v
  | None => dflt
  end.

(** *** [parseInt(string, radix)]

    Strings are sequences of code units below 256, so the white space that
    can occur is TAB, LF, VT, FF, CR, SP and NBSP. *)
Local Open Scope Z_scope.

Definition isWhiteSpace (c : ascii) : bool :=
  let n := Z.of_nat (nat_of_ascii c) in
  ((9 <=? n) && (n <=? 13)) || (n =? 32) || (n =? 160).

Fixpoint trimStart (s : string) : string :=
  match s with
  | EmptyString => EmptyString
  | String c rest => if isWhiteSpace c then trimStart rest else s
  end.

(** Value of a code unit read as a digit: 0-9, then a-z and A-Z for 10-35. *)
Definition digitValue (c : ascii) : option Z :=
  let n := Z.of_nat (nat_of_ascii c) in
  if (48 <=? n) && (n <=? 57) then Some (n - 48)
  else if (97 <=? n) && (n <=? 122) then Some (n - 87)
  else if (65 <=? n) && (n <=? 90) then Some (n - 55)
  else None.

(** The longest prefix of [s] made of digits of radix [R]. *)
Fixpoint radixDigits (R : Z) (s : string) : list Z :=
  match s with
  | EmptyString => []
  | String c rest =>
      match digitValue c with
      | Some d => if d <? R then d :: radixDigits R rest else []
      | None => []
      end
  end.

Definition mathInt (R : Z) (ds : list Z) : Z :=
  fold_left (fun acc d => R * acc + d) ds 0.

Definition stripSign (s : string) : Z * string :=
  match s with
  | String "-" rest => (-1, rest)
  | String "+" rest => (1, rest)
  | _ => (1, s)
  end.

Definition stripHexPrefix (s : string) : option string :=
  match s with
  | String "0" (String "x" rest) => Some rest
  | String "0" (String "X" rest) => Some rest
  | _ => None
  end.

Definition parseInt (input : string) (radix : Z) : JSNumber :=
  let '(sign, str) := stripSign (trimStart input) in
  if (radix =? 0) || ((2 <=? radix) && (radix <=? 36)) then
    let stripPrefix := (radix =? 0) || (radix =? 16) in
    let '(R, digits) :=
      match (if stripPrefix then stripHexPrefix str else None) with
      | Some rest => (16, rest)
      | None => (if radix =? 0 then 10 else radix, str)
      end in
    match radixDigits R digits with
    | [] => NaN
    | ds => Num (sign * mathInt R ds)
    end
  else NaN.

Local Close Scope Z_scope.

(** Template-literal conversion of a number, exact below 10^21. *)
Definition Number_toString (n : JSNumber) : string :=
  match n with
  | NaN => "NaN"
  | Num z => pretty z
  end.

(** [Array.prototype.join]. *)
Fixpoint join (sep : string) (l : list string) : string :=
  match l with
  | [] => ""
  | [x] => x
  | x :: rest => x +:+ sep +:+ join sep rest
  end.

(** ** Data model *)

(** The records below stand for the declarations of the module [types]
    and of the collaborating classes, which [Application.ts] imports. *)

(** One route declared on a controller method. *)
Record RouteBinding : Type := {
  httpMethod : string;
  path : string;
  handlerName : string
}.

(** What [getControllerMetadata] returns. *)
Record RestControllerConfig : Type := {
  basePath : string;
  routes : list RouteBinding
}.

(** The prototype object of a controller class, with what may have been
    written on it: the property [name], the base path and the routes.  Each
    of them is [undefined] unless something wrote it. *)
Record Prototype : Type := {
  name : option string;
  declaredBasePath : option string;
  declaredRoutes : option (list RouteBinding)
}.

(** A controller class ([Newable]): something that can be instantiated with
    [new].  [className] is the class's own name, [controllerClass.name];
    [prototype] is [controllerClass.prototype]. *)
Record Newable : Type := {
  className : string;
  prototype : Prototype
}.

(** A controller object: its identity and the class that built it. *)
Record Instance : Type := {
  oid : nat;
  constructor_ : Newable
}.

(** Loggers: the global [console] or an object supplied by the caller. *)
Inductive Console : Type :=
| console
| customLogger (id : nat).

Inductive LogLevel : Type :=
| info
| warn.

Inductive Error : Type :=
| ENOENT (file : string)
| SyntaxError (text : string)
| TypeError (msg : string)
| ERR_SOCKET_BAD_PORT (p : JSNumber)
| EADDRINUSE (z : Z)
| EACCES (z : Z).

Inductive LogMessage : Type :=
| Text (s : string)
| Caught (e : Error).

(** The two middleware functions a router hands out. *)
Inductive Middleware : Type :=
| routesMiddleware
| allowedMethodsMiddleware.

(** An entry of the router's [stack]. *)
Record Layer : Type := {
  methods : list string;
  layerPath : string;
  handler : Instance * string
}.

Record AppRouter : Type := {
  stack : list Layer
}.

Record Koa : Type := {
  middleware : list Middleware
}.

Record Properties : Type := {
  entries : gmap string string
}.

(** An [http.Server]: the port handed to [listen], whether the socket is
    open, and the error the host reports on the handle when the port could
    not be bound.  The host raises that error as an event after the call
    has returned; nothing in [Application] listens for it, and what the
    host does with an unheard error is not part of this model. *)
Record Server : Type := {
  port : JSNumber;
  listening : bool;
  failure : option Error
}.

(** A file on disk: either text that is not JSON, or a JSON object that is a
    flat map from keys to strings. *)
Inductive File : Type :=
| Malformed (text : string)
| JsonObject (props : gmap string string).

Record ApplicationConfig : Type := {
  cfg_propertiesPath : option string;
  cfg_controllers : option (list Newable);
  cfg_logger : option Console
}.

(** The fields of an [Application] object. *)
Record Application : Type := {
  app : Koa;
  router : AppRouter;
  controllers : list Newable;
  properties : Properties;
  logger : Console;
  server : option nat
}.

(** Calls on collaborators, in the order they happen. *)
Inductive Event : Type :=
| EvNewKoa
| EvNewAppRouter
| EvNewProperties (file : string) (lg : Console)
| EvLog (lg : Console) (lvl : LogLevel) (msg : LogMessage)
| EvGetControllerMetadata (proto : Prototype)
| EvNew (cls : Newable) (inst : Instance)
| EvConfigureEndpoints (rs : list RouteBinding) (inst : Instance) (base : string)
| EvCacheSet (key : option string) (inst : Instance)
| EvUse (mw : Middleware)
| EvListen (p : JSNumber) (srv : nat)
| EvServerClose (srv : nat).

(** The process and its host: disk, the TCP ports the host will not bind
    for this process, each with the error it reports (ports in use, by this
    process or any other, and ports the process may not bind), object
    allocator, the heaps of applications and servers, the process-wide
    instance cache and the call trace.  The cache is keyed by the value
    passed as key, which may be [undefined]. *)
Record World : Type := {
  files : gmap string File;
  unavailable : gmap Z Error;
  next_oid : nat;
  apps : gmap nat Application;
  servers : gmap nat Server;
  cache : gmap (option string) Instance;
  trace : list Event
}.

(** ** The state and exception monad *)

Inductive Outcome (A : Type) : Type :=
| Ok (a : A)
| Throw (e : Error).

Arguments Ok {A} a.
Arguments Throw {A} e.

Definition M (A : Type) : Type := World -> Outcome A * World.

Definition ret {A : Type} (a : A) : M A := fun w => (Ok a, w).

Definition bind {A B : Type} (m : M A) (f : A -> M B) : M B :=
  fun w =>
    match m w with
    | (Ok a, w') => f a w'
    | (Throw e, w') => (Throw e, w')
    end.

Definition throw {A : Type} (e : Error) : M A := fun w => (Throw e, w).

Definition try_catch {A : Type} (body : M A) (handler : Error -> M A) : M A :=
  fun w =>
    match body w with
    | (Ok a, w') => (Ok a, w')
    | (Throw e, w') => handler e w'
    end.

(** An [async] function without [await]: its body runs when it is called;
    what the body returns or throws settles the promise it returns. *)
Inductive Promise (A : Type) : Type :=
| Resolved (a : A)
| Rejected (e : Error).

Arguments Resolved {A} a.
Arguments Rejected {A} e.

Definition async {A : Type} (body : M A) : M (Promise A) :=
  fun w =>
    match body w with
    | (Ok a, w') => (Ok (Resolved a), w')
    | (Throw e, w') => (Ok (Rejected e), w')
    end.

Notation "'do' x <- m ; k" := (bind m (fun x => k))
  (at level 10, x name, m at level 100, k at level 200).
Notation "'run' m ; k" := (bind m (fun _ => k))
  (at level 10, m at level 100, k at level 200).

Fixpoint forEach {A : Type} (l : list A) (f : A -> M unit) : M unit :=
  match l with
  | [] => ret tt
  | x :: rest => run f x; forEach rest f
  end.

(** *** Primitive effects *)

Definition emit (e : Event) : M unit :=
  fun w =>
    (Ok tt, {| files := files w; unavailable := unavailable w;
               next_oid := next_oid w; apps := apps w;
               servers := servers w; cache := cache w;
               trace := trace w ++ [e] |}).

Definition fresh : M nat :=
  fun w =>
    (Ok (next_oid w),
     {| files := files w; unavailable := unavailable w;
        next_oid := S (next_oid w); apps := apps w;
        servers := servers w; cache := cache w; trace := trace w |}).

Definition get_app (this : nat) : M Application :=
  fun w =>
    match apps w !! this with
    | Some a => (Ok a, w)
    | None => (Throw (TypeError "not an Application"), w)
    end.

Definition put_app (this : nat) (a : Application) : M unit :=
  fun w =>
    (Ok tt, {| files := files w; unavailable := unavailable w; next_oid := next_oid w;
               apps := <[this := a]> (apps w);
               servers := servers w; cache := cache w; trace := trace w |}).

Definition get_server (srv : nat) : M Server :=
  fun w =>
    match servers w !! srv with
    | Some s => (Ok s, w)
    | None => (Throw (TypeError "not a Server"), w)
    end.

Definition get_unavailable : M (gmap Z Error) := fun w => (Ok (unavailable w), w).

Definition put_unavailable (table : gmap Z Error) : M unit :=
  fun w =>
    (Ok tt, {| files := files w; unavailable := table; next_oid := next_oid w;
               apps := apps w; servers := servers w; cache := cache w;
               trace := trace w |}).

Definition put_server (srv : nat) (s : Server) : M unit :=
  fun w =>
    (Ok tt, {| files := files w; unavailable := unavailable w;
               next_oid := next_oid w; apps := apps w;
               servers := <[srv := s]> (servers w);
               cache := cache w; trace := trace w |}).

(** Field assignments on an [Application]. *)
Definition set_app (k : Koa) (a : Application) : Application :=
  {| app := k; router := router a; controllers := controllers a;
     properties := properties a; logger := logger a; server := server a |}.

Definition set_router (r : AppRouter) (a : Application) : Application :=
  {| app := app a; router := r; controllers := controllers a;
     properties := properties a; logger := logger a; server := server a |}.

Definition set_server (s : option nat) (a : Application) : Application :=
  {| app := app a; router := router a; controllers := controllers a;
     properties := properties a; logger := logger a; server := s |}.

(** ** Host platform: disk, console, Koa and [http.Server] *)

Definition readFileSync (file : string) : M File :=
  fun w =>
    match files w !! file with
    | Some f => (Ok f, w)
    | None => (Throw (ENOENT file), w)
    end.

Definition JSON_parse (f : File) : M (gmap string string) :=
  match f with
  | JsonObject props => ret props
  | Malformed text => throw (SyntaxError text)
  end.

Definition Console_info (lg : Console) (msg : LogMessage) : M unit :=
  emit (EvLog lg info msg).

Definition Console_warn (lg : Console) (msg : LogMessage) : M unit :=
  emit (EvLog lg warn msg).

(** [new controllerClass()]: a fresh object of that class. *)
Definition new (cls : Newable) : M Instance :=
  do id <- fresh;
  let inst := {| oid := id; constructor_ := cls |} in
  run emit (EvNew cls inst);
  ret inst.

Definition Koa_new : M Koa :=
  run emit EvNewKoa;
  ret {| middleware := [] |}.

(** [owner.app.use(mw)] *)
Definition Koa_use (owner : nat) (mw : Middleware) : M unit :=
  do self <- get_app owner;
  run emit (EvUse mw);
  put_app owner (set_app {| middleware := middleware (app self) ++ [mw] |} self).

(** The ports [listen] accepts: the integers from 0 to 65535. *)
Definition validPort (p : JSNumber) : bool :=
  match p with
  | Num z => (0 <=? z)%Z && (z <=? 65535)%Z
  | NaN => false
  end.

(** What the host does with [server.listen(p)], given the ports it will
    not bind: a port that is not valid is refused with an exception; port 0
    asks for any free port, which the host grants (the port it picks is not
    tracked); a port the host will not bind leaves the server closed with
    the host's error reported on it; any other port is bound and from then
    on in use. *)
Definition bindPort (table : gmap Z Error) (p : JSNumber) : Error + Server * gmap Z Error :=
  match p with
  | NaN => inl (ERR_SOCKET_BAD_PORT p)
  | Num z =>
      if validPort p then
        if (z =? 0)%Z then
          inr ({| port := p; listening := true; failure := None |}, table)
        else
          match table !! z with
          | Some e =>
              inr ({| port := p; listening := false; failure := Some e |}, table)
          | None =>
              inr ({| port := p; listening := true; failure := None |},
                   <[z := EADDRINUSE z]> table)
          end
      else inl (ERR_SOCKET_BAD_PORT p)
  end.

(** [owner.app.listen(p)]: Koa creates a server and calls its [listen]. *)
Definition Koa_listen (owner : nat) (p : JSNumber) : M nat :=
  do _self <- get_app owner;
  do srv <- fresh;
  run emit (EvListen p srv);
  do table <- get_unavailable;
  match bindPort table p with
  | inl e => throw e
  | inr (s, table') =>
      run put_server srv s;
      run put_unavailable table';
      ret srv
  end.

(** The ports the host will not bind once the server [s] has been closed. *)
Definition releasePort (table : gmap Z Error) (s : Server) : gmap Z Error :=
  match port s with
  | Num z => if listening s && negb (z =? 0)%Z then delete z table else table
  | NaN => table
  end.

(** [srv.close()]: closes the socket when it is open, and returns the
    server itself. *)
Definition Server_close (srv : nat) : M nat :=
  do s <- get_server srv;
  run put_server srv {| port := port s; listening := false; failure := failure s |};
  do table <- get_unavailable;
  run put_unavailable (releasePort table s);
  run emit (EvServerClose srv);
  ret srv.

(** ** Collaborators of [Application] inside the repository *)

(** Modelled from the spec: the [Properties] loader ([core/Properties] is
    imported by [Application.ts] but is not among the sources).  It is built
    from a file path and a logger, reads and parses the file once, and on a
    read or parse failure logs a warning and keeps an empty property set. *)
Definition Properties_new (file : string) (lg : Console) : M Properties :=
  run emit (EvNewProperties file lg);
  try_catch
    (do f <- readFileSync file;
     do props <- JSON_parse f;
     ret {| entries := props |})
    (fun e =>
       run Console_warn lg (Caught e);
       ret {| entries := ∅ |}).

(** Modelled from the spec: [Properties.get(key)] is the value stored under
    [key], or [undefined]. *)
Definition Properties_get (p : Properties) (key : string) : option string :=
  entries p !! key.

(** Modelled from the spec: [getControllerMetadata] ([Utils] is not among
    the sources).  It returns the base path and the routes recorded on the
    prototype, the empty path and the empty list when none were declared,
    and changes nothing; the call itself is entered in the trace. *)
Definition readMetadata (proto : Prototype) : RestControllerConfig :=
  {| basePath := default_param "" (declaredBasePath proto);
     routes := default_param [] (declaredRoutes proto) |}.

(** Modelled from the spec: the call [getControllerMetadata(prototype)] as
    [initialize] makes it. *)
Definition getControllerMetadata (proto : Prototype) : M RestControllerConfig :=
  run emit (EvGetControllerMetadata proto);
  ret (readMetadata proto).

(** Modelled from the spec: the router adapter [AppRouter] ([core/AppRouter]
    is not among the sources).  [configureEndpoints] registers, in the order
    of the route list, one handler per binding at [basePath + path], bound
    to the controller instance; [routes()] and [allowedMethods()] are the
    two middleware; [stack] lists what was registered. *)
Definition AppRouter_new : M AppRouter :=
  run emit EvNewAppRouter;
  ret {| stack := [] |}.

(** Modelled from the spec: the router entry for one route binding. *)
Definition endpoint (inst : Instance) (base : string) (r : RouteBinding) : Layer :=
  {| methods := [httpMethod r];
     layerPath := base +:+ path r;
     handler := (inst, handlerName r) |}.

(** Modelled from the spec: [owner.router.configureEndpoints(rs, inst, base)]. *)
Definition AppRouter_configureEndpoints
    (owner : nat) (rs : list RouteBinding) (inst : Instance) (base : string) : M unit :=
  do self <- get_app owner;
  run emit (EvConfigureEndpoints rs inst base);
  put_app owner
    (set_router {| stack := stack (router self) ++ map (endpoint inst base) rs |} self).

(** Modelled from the spec: [router.routes()], [router.allowedMethods()] and
    [router.stack]. *)
Definition AppRouter_routes (r : AppRouter) : Middleware := routesMiddleware.

Definition AppRouter_allowedMethods (r : AppRouter) : Middleware :=
  allowedMethodsMiddleware.

Definition AppRouter_stack (r : AppRouter) : option (list Layer) := Some (stack r).

(** Modelled from the spec: the instance cache [ApplicationCache]
    ([data/ApplicationCache] is not among the sources): one process-wide
    map from a key to an instance, [set] overwrites, nothing is removed.
    The key is the value the caller passes, [undefined] included. *)
Definition ApplicationCache_set (key : option string) (inst : Instance) : M unit :=
  run emit (EvCacheSet key inst);
  fun w =>
    (Ok tt, {| files := files w; unavailable := unavailable w;
               next_oid := next_oid w; apps := apps w;
               servers := servers w; cache := <[key := inst]> (cache w);
               trace := trace w |}).

(** Modelled from the spec: [ApplicationCache.get(key)]. *)
Definition ApplicationCache_get (key : option string) : M (option Instance) :=
  fun w => (Ok (cache w !! key), w).

(** ** The class [Application] *)

Definition LF : string := String (ascii_of_nat 10) "".
Definition TAB : string := String (ascii_of_nat 9) "".

(** [constructor({propertiesPath = '/haru.config.json', controllers = [],
    logger = console})] *)
Definition Application_new (cfg : ApplicationConfig) : M nat :=
  let propertiesPath := default_param "/haru.config.json" (cfg_propertiesPath cfg) in
  let controllers := default_param [] (cfg_controllers cfg) in
  let logger := default_param console (cfg_logger cfg) in
  do this <- fresh;
  do app <- Koa_new;
  do router <- AppRouter_new;
  do properties <- Properties_new propertiesPath logger;
  run put_app this {| app := app; router := router; controllers := controllers;
                      properties := properties; logger := logger;
                      server := None |};
  ret this.

(** The body of the [forEach] callback of [initialize]. *)
Definition registerController (this : nat) (controllerClass : Newable) : M unit :=
  do meta <- getControllerMetadata (prototype controllerClass);
  do controllerInstance <- new controllerClass;
  run AppRouter_configureEndpoints this (routes meta) controllerInstance (basePath meta);
  ApplicationCache_set (name (prototype controllerClass)) controllerInstance.

Definition initialize (this : nat) : M nat :=
  do self <- get_app this;
  run forEach (controllers self) (registerController this);
  ret this.

(** The private helpers only read fields of [this]; they take the object as
    it is when they are called. *)
Definition getPortFromProperties (self : Application) : option JSNumber :=
  let port := Properties_get (properties self) "port" in
  if truthy port then (fun s => parseInt s 10) <$> port else None.

Definition getAvailableRoutes (self : Application) : string :=
  match AppRouter_stack (router self) with
  | Some st =>
      join LF
        (map (fun route =>
                "[" +:+ join "," (methods route) +:+ "] " +:+ TAB +:+ TAB
                +:+ " =>  " +:+ layerPath route) st)
  | None => ""
  end.

Definition startedMessage (usedPort : JSNumber) (available : string) : LogMessage :=
  Text ("Haru App started @ http://localhost:" +:+ Number_toString usedPort
        +:+ " " +:+ LF +:+ available).

Definition start (this : nat) (port : option JSNumber) : M (Promise unit) :=
  async (
  let port := default_param (Num 8080%Z) port in
  do self <- get_app this;
  run Koa_use this (AppRouter_routes (router self));
  do self <- get_app this;
  run Koa_use this (AppRouter_allowedMethods (router self));
  do self <- get_app this;
  let usedPort := getPortFromProperties self ?? port in
  do srv <- Koa_listen this usedPort;
  do self <- get_app this;
  run put_app this (set_server (Some srv) self);
  do self <- get_app this;
  Console_info (logger self) (startedMessage usedPort (getAvailableRoutes self))).

Definition close (this : nat) : M (option nat) :=
  do self <- get_app this;
  match server self with
  | Some srv => do closed <- Server_close srv; ret (Some closed)
  | None => ret None
  end.

(** The entry point: [app.initialize().start()]. *)
Definition launch (this : nat) : M (Promise unit) :=
  do initialized <- initialize this;
  start initialized None.

(** ** What [initialize] leaves behind, written out *)

(** The key [initialize] passes to the cache for a class:
    [controllerClass.prototype.name]. *)
Definition cacheKey (cls : Newable) : option string := name (prototype cls).

Definition instanceAt (n : nat) (cls : Newable) : Instance :=
  {| oid := n; constructor_ := cls |}.

(** The four calls made for one controller class whose instance is [inst]. *)
Definition registrationSteps (cls : Newable) (inst : Instance) : list Event :=
  let meta := readMetadata (prototype cls) in
  [ EvGetControllerMetadata (prototype cls);
    EvNew cls inst;
    EvConfigureEndpoints (routes meta) inst (basePath meta);
    EvCacheSet (cacheKey cls) inst ].

Fixpoint registrationEvents (n : nat) (cs : list Newable) : list Event :=
  match cs with
  | [] => []
  | c :: rest => registrationSteps c (instanceAt n c) ++ registrationEvents (S n) rest
  end.

Fixpoint registeredLayers (n : nat) (cs : list Newable) : list Layer :=
  match cs with
  | [] => []
  | c :: rest =>
      map (endpoint (instanceAt n c) (basePath (readMetadata (prototype c))))
          (routes (readMetadata (prototype c)))
      ++ registeredLayers (S n) rest
  end.

Fixpoint cachedInstances (n : nat) (cs : list Newable)
    (m : gmap (option string) Instance) : gmap (option string) Instance :=
  match cs with
  | [] => m
  | c :: rest => cachedInstances (S n) rest (<[cacheKey c := instanceAt n c]> m)
  end.

(** The world after [initialize] ran on the application [self] stored at
    [this]. *)
Definition initialized (this : nat) (self : Application) (w : World) : World :=
  {| files := files w;
     unavailable := unavailable w;
     next_oid := next_oid w + length (controllers self);
     apps := <[this := set_router
                 {| stack := stack (router self)
                             ++ registeredLayers (next_oid w) (controllers self) |}
                 self]> (apps w);
     servers := servers w;
     cache := cachedInstances (next_oid w) (controllers self) (cache w);
     trace := trace w ++ registrationEvents (next_oid w) (controllers self) |}.

(** ** What [start] leaves behind, written out *)

(** The value [start(port)] computes as [usedPort]. *)
Definition usedPortOf (self : Application) (port : option JSNumber) : JSNumber :=
  getPortFromProperties self ?? default_param (Num 8080%Z) port.

(** The object at [this] once [start] has mounted the two middleware. *)
Definition mountedOnly (self : Application) : Application :=
  set_app {| middleware := middleware (app self)
                           ++ [routesMiddleware; allowedMethodsMiddleware] |}
          self.

(** The object at [this] once [start] has also stored the server [srv]. *)
Definition mounted (self : Application) (srv : nat) : Application :=
  set_server (Some srv) (mountedOnly self).

(** The world after a [start(port)] whose [listen] threw. *)
Definition rejected (this : nat) (self : Application) (port : option JSNumber)
    (w : World) : World :=
  {| files := files w;
     unavailable := unavailable w;
     next_oid := S (next_oid w);
     apps := <[this := mountedOnly self]> (apps w);
     servers := servers w;
     cache := cache w;
     trace := trace w
              ++ [ EvUse routesMiddleware;
                   EvUse allowedMethodsMiddleware;
                   EvListen (usedPortOf self port) (next_oid w) ] |}.

(** The world after a [start(port)] whose [listen] returned, leaving the
    new server in state [s] and the host's port table as [table]. *)
Definition started (this : nat) (self : Application) (port : option JSNumber)
    (s : Server) (table : gmap Z Error) (w : World) : World :=
  {| files := files w;
     unavailable := table;
     next_oid := S (next_oid w);
     apps := <[this := mounted self (next_oid w)]> (apps w);
     servers := <[next_oid w := s]> (servers w);
     cache := cache w;
     trace := trace w
              ++ [ EvUse routesMiddleware;
                   EvUse allowedMethodsMiddleware;
                   EvListen (usedPortOf self port) (next_oid w);
                   EvLog (logger self) info
                     (startedMessage (usedPortOf self port)
                        (getAvailableRoutes self)) ] |}.

(** The calls made between the worlds [w] and [w']. *)
Definition newCalls (w w' : World) : list Event :=
  drop (length (trace w)) (trace w').

(** The application at [this] has a server [srv] that listens on [p]. *)
Definition listensOn (this : nat) (w : World) (srv : nat) (p : JSNumber) : Prop :=
  server <$> apps w !! this = Some (Some srv)
  /\ servers w !! srv = Some {| port := p; listening := true; failure := None |}.

(** [start(port)] on the application at [this] in [w] resolves and binds
    port [p]. *)
Definition binds (this : nat) (port : option JSNumber) (w : World) (p : JSNumber) : Prop :=
  exists w' srv,
    start this port w = (Ok (Resolved tt), w')
    /\ listensOn this w' srv p
    /\ EvListen p srv ∈ newCalls w w'.

(** [start(port)] on the application at [this] in [w] calls [listen]
    exactly once, with the port [p]. *)
Definition passesToListen (this : nat) (port : option JSNumber) (w : World)
    (p : JSNumber) : Prop :=
  exists outcome w' srv,
    start this port w = (Ok outcome, w')
    /\ forall q s, EvListen q s ∈ newCalls w w' <-> q = p /\ s = srv.

(** A port from 1 to 65535 that the host is ready to bind. *)
Definition freePort (w : World) (z : Z) : Prop :=
  (1 <= z <= 65535)%Z /\ unavailable w !! z = None.

(** The effective port in the words of the amended port rule: the property
    parsed as an integer when it is present and not empty, the argument
    (8080 by default) otherwise. *)
Definition effectivePort (prop : option string) (port : option JSNumber) : JSNumber :=
  match prop with
  | Some s => if decide (s = "") then default_param (Num 8080%Z) port
              else parseInt s 10
  | None => default_param (Num 8080%Z) port
  end.

(** What a router entry says about the route, without the instance. *)
Definition routeOf (l : Layer) : list string * string * string :=
  (methods l, layerPath l, snd (handler l)).

(** ** Sample programs *)

(** Controller classes on whose prototype the class's name was written. *)
Definition UserController : Newable :=
  {| className := "UserController";
     prototype :=
       {| name := Some "UserController";
          declaredBasePath := Some "/users";
          declaredRoutes :=
            Some [ {| httpMethod := "GET"; path := "/"; handlerName := "list" |};
                   {| httpMethod := "POST"; path := "/"; handlerName := "create" |} ] |} |}.

Definition HelloWorldController : Newable :=
  {| className := "HelloWorldController";
     prototype :=
       {| name := Some "HelloWorldController";
          declaredBasePath := None;
          declaredRoutes :=
            Some [ {| httpMethod := "GET"; path := "/hello"; handlerName := "hello" |} ] |} |}.

(** Controller classes with nothing written on the prototype as [name]. *)
Definition BareUser : Newable :=
  {| className := "BareUser";
     prototype :=
       {| name := None;
          declaredBasePath := Some "/users";
          declaredRoutes :=
            Some [ {| httpMethod := "GET"; path := "/"; handlerName := "list" |} ] |} |}.

Definition BareHello : Newable :=
  {| className := "BareHello";
     prototype :=
       {| name := None;
          declaredBasePath := Some "/hello";
          declaredRoutes :=
            Some [ {| httpMethod := "GET"; path := "/"; handlerName := "hello" |} ] |} |}.

(** An application object as the constructor leaves it. *)
Definition constructed (cs : list Newable) (props : gmap string string) : Application :=
  {| app := {| middleware := [] |};
     router := {| stack := [] |};
     controllers := cs;
     properties := {| entries := props |};
     logger := console;
     server := None |}.

(** A process that holds the single application [a] at reference 0, on a
    host that is ready to bind every port. *)
Definition worldOf (a : Application) : World :=
  {| files := ∅; unavailable := ∅; next_oid := 1; apps := {[ 0 := a ]};
     servers := ∅; cache := ∅; trace := [] |}.

Definition emptyWorld : World :=
  {| files := ∅; unavailable := ∅; next_oid := 0; apps := ∅; servers := ∅;
     cache := ∅; trace := [] |}.

(** The same process on a host where port 8080 is in use. *)
Definition busyWorldOf (a : Application) : World :=
  {| files := ∅; unavailable := {[ 8080%Z := EADDRINUSE 8080%Z ]};
     next_oid := 1; apps := {[ 0 := a ]};
     servers := ∅; cache := ∅; trace := [] |}.

Definition demoApp : Application :=
  constructed [UserController; HelloWorldController] {[ "port" := "9191" ]}.

Definition bareApp : Application := constructed [BareUser; BareHello] ∅.

Definition blankPortApp : Application := constructed [] {[ "port" := "" ]}.

Definition wordPortApp : Application := constructed [] {[ "port" := "http" ]}.

Definition plainApp : Application := constructed [UserController] ∅.

(** ** The entry point *)


(** ** Vocabulary for the further properties *)

(** The calls [initialize] makes. *)
Definition isRegistrationEvent (e : Event) : bool :=
  match e with
  | EvGetControllerMetadata _ | EvNew _ _ | EvConfigureEndpoints _ _ _
  | EvCacheSet _ _ => true
  | _ => false
  end.

(** The messages logged among some calls, in order. *)
Fixpoint logged (calls : list Event) : list (Console * LogLevel * LogMessage) :=
  match calls with
  | [] => []
  | EvLog lg lvl msg :: rest => (lg, lvl, msg) :: logged rest
  | _ :: rest => logged rest
  end.

Fixpoint allWhiteSpace (s : string) : bool :=
  match s with
  | EmptyString => true
  | String c rest => isWhiteSpace c && allWhiteSpace rest
  end.

(** The string starts with a decimal digit. *)
Definition startsWithDigit (s : string) : bool :=
  match s with
  | EmptyString => false
  | String c _ =>
      match digitValue c with
      | Some d => (d <? 10)%Z
      | None => false
      end
  end.

(** The integers a JavaScript number holds exactly. *)
Definition safeInteger (z : Z) : Prop := (Z.abs z <= 2 ^ 53)%Z.

(** The property set the file at [file] yields: its entries when it is a
    JSON object, nothing when it is missing or is not JSON. *)
Definition configured (w : World) (file : string) : gmap string string :=
  match files w !! file with
  | Some (JsonObject props) => props
  | _ => ∅
  end.

(** * Proofs *)

(** ** [parseInt] on sample inputs *)

Example parseInt_digits : parseInt "9191" 10 = Num 9191%Z.
Proof. reflexivity. Qed.

Example parseInt_empty : parseInt "" 10 = NaN.
Proof. reflexivity. Qed.

Example parseInt_word : parseInt "http" 10 = NaN.
Proof. reflexivity. Qed.

Example parseInt_prefix : parseInt "  -12px" 10 = Num (-12)%Z.
Proof. reflexivity. Qed.

Example parseInt_hex_in_radix_10 : parseInt "0x1f" 10 = Num 0%Z.
Proof. reflexivity. Qed.

Example parseInt_hex : parseInt "0x1f" 16 = Num 31%Z.
Proof. reflexivity. Qed.

(** ** Running the methods *)

Lemma set_router_same (a : Application) : set_router {| stack := stack (router a) |} a = a.
Proof. destruct a as [k [st] cs ps lg sv]. reflexivity. Qed.

Lemma world_eta (w : World) :
  {| files := files w; unavailable := unavailable w; next_oid := next_oid w; apps := apps w;
     servers := servers w; cache := cache w; trace := trace w |} = w.
Proof. destruct w. reflexivity. Qed.

Ltac step :=
  unfold bind, ret, emit, fresh, get_app, put_app, get_server, put_server; simpl.

Lemma registerController_run this self c w :
  apps w !! this = Some self ->
  registerController this c w =
    (Ok tt,
     {| files := files w; unavailable := unavailable w; next_oid := S (next_oid w);
        apps := <[this := set_router
                    {| stack := stack (router self)
                                ++ registeredLayers (next_oid w) [c] |} self]> (apps w);
        servers := servers w;
        cache := <[cacheKey c := instanceAt (next_oid w) c]> (cache w);
        trace := trace w ++ registrationSteps c (instanceAt (next_oid w) c) |}).
Proof.
  intros Hthis.
  unfold registerController, getControllerMetadata, new,
    AppRouter_configureEndpoints, ApplicationCache_set.
  step. rewrite Hthis. simpl.
  rewrite app_nil_r. rewrite <- !app_assoc. reflexivity.
Qed.

Lemma forEach_registerController_run this cs : forall self w,
  apps w !! this = Some self ->
  forEach cs (registerController this) w =
    (Ok tt,
     {| files := files w; unavailable := unavailable w; next_oid := next_oid w + length cs;
        apps := <[this := set_router
                    {| stack := stack (router self)
                                ++ registeredLayers (next_oid w) cs |} self]> (apps w);
        servers := servers w;
        cache := cachedInstances (next_oid w) cs (cache w);
        trace := trace w ++ registrationEvents (next_oid w) cs |}).
Proof.
  induction cs as [|c rest IH]; intros self w Hthis.
  - simpl. unfold ret. rewrite !app_nil_r, Nat.add_0_r, set_router_same.
    rewrite (insert_id _ _ _ Hthis). by rewrite world_eta.
  - cbn [forEach]. unfold bind at 1.
    rewrite (registerController_run _ _ _ _ Hthis).
    erewrite IH by (simpl; apply lookup_insert_eq).
    simpl. rewrite insert_insert_eq, app_nil_r, <- !app_assoc.
    replace (next_oid w + S (length rest)) with (S (next_oid w + length rest)) by lia.
    reflexivity.
Qed.

Lemma initialize_run this self w :
  apps w !! this = Some self ->
  initialize this w = (Ok this, initialized this self w).
Proof.
  intros Hthis. unfold initialize, bind at 1, get_app. rewrite Hthis.
  unfold bind. by rewrite (forEach_registerController_run _ _ _ _ Hthis).
Qed.

Lemma getPortFromProperties_set_app k a :
  getPortFromProperties (set_app k a) = getPortFromProperties a.
Proof. reflexivity. Qed.

Ltac step_listen :=
  unfold get_unavailable, put_unavailable, throw; simpl.

Lemma start_run this self port w :
  apps w !! this = Some self ->
  start this port w =
    match bindPort (unavailable w) (usedPortOf self port) with
    | inl e => (Ok (Rejected e), rejected this self port w)
    | inr (s, table) => (Ok (Resolved tt), started this self port s table w)
    end.
Proof.
  intros Hthis. unfold start, async, Koa_use, Koa_listen, Console_info.
  step. repeat (first [rewrite Hthis | rewrite lookup_insert_eq]; simpl).
  step_listen.
  rewrite !getPortFromProperties_set_app. fold (usedPortOf self port).
  destruct (bindPort (unavailable w) (usedPortOf self port)) as [e | [s table]]; simpl.
  - unfold rejected, mountedOnly. rewrite !insert_insert_eq, <- !app_assoc.
    reflexivity.
  - step. rewrite !lookup_insert_eq. simpl.
    unfold started, mounted, mountedOnly. rewrite !insert_insert_eq, <- !app_assoc.
    reflexivity.
Qed.

Section Registration.

Implicit Types (cs : list Newable) (m : gmap (option string) Instance) (n i : nat).

Lemma cachedInstances_lookup_other cs : forall n m k,
  k ∉ cacheKey <$> cs ->
  cachedInstances n cs m !! k = m !! k.
Proof.
  induction cs as [|c rest IH]; intros n m k Hk; [done|].
  rewrite fmap_cons, not_elem_of_cons in Hk. destruct Hk as [Hne Hrest].
  cbn [cachedInstances]. rewrite IH by done. by rewrite lookup_insert_ne.
Qed.


Lemma cachedInstances_dom cs : forall n m,
  dom (cachedInstances n cs m) = dom m ∪ list_to_set (cacheKey <$> cs).
Proof.
  induction cs as [|c rest IH]; intros n m; cbn [cachedInstances].
  - by rewrite fmap_nil, list_to_set_nil, (right_id_L ∅ (∪)).
  - rewrite IH, dom_insert_L, fmap_cons, list_to_set_cons.
    by rewrite (comm_L (∪) {[cacheKey c]} (dom m)), (assoc_L (∪)).
Qed.


Lemma registrationEvents_configure cs : forall n rs inst base,
  EvConfigureEndpoints rs inst base ∈ registrationEvents n cs <->
  exists i c, cs !! i = Some c
           /\ inst = instanceAt (n + i) c
           /\ rs = routes (readMetadata (prototype c))
           /\ base = basePath (readMetadata (prototype c)).
Proof.
  induction cs as [|c0 rest IH]; intros n rs inst base; cbn [registrationEvents].
  - split; [by intros ?%elem_of_nil | by intros (i & c & ? & _)].
  - unfold registrationSteps. rewrite elem_of_app, IH. split.
    + intros [Hhd | (i & c & Hi & -> & -> & ->)].
      * rewrite !elem_of_cons, elem_of_nil in Hhd.
        destruct Hhd as [?|[?|[Heq|[?|[]]]]]; try discriminate.
        simplify_eq/=. exists 0, c0. by rewrite Nat.add_0_r.
      * exists (S i), c. repeat split; [done|]. f_equal. lia.
    + intros ([|j] & c & Hi & -> & -> & ->).
      * simplify_eq/=. left. rewrite Nat.add_0_r.
        rewrite !elem_of_cons. auto.
      * right. exists j, c. repeat split; [done|]. f_equal. lia.
Qed.

Lemma registrationEvents_new cs : forall n c inst,
  EvNew c inst ∈ registrationEvents n cs <->
  exists i, cs !! i = Some c /\ inst = instanceAt (n + i) c.
Proof.
  induction cs as [|c0 rest IH]; intros n c inst; cbn [registrationEvents].
  - split; [by intros ?%elem_of_nil | by intros (i & ? & _)].
  - unfold registrationSteps. rewrite elem_of_app, IH. split.
    + intros [Hhd | (i & Hi & ->)].
      * rewrite !elem_of_cons, elem_of_nil in Hhd.
        destruct Hhd as [?|[Heq|[?|[?|[]]]]]; try discriminate.
        simplify_eq/=. exists 0. by rewrite Nat.add_0_r.
      * exists (S i). split; [done|]. f_equal. lia.
    + intros ([|j] & Hi & ->).
      * simplify_eq/=. left. rewrite Nat.add_0_r.
        rewrite !elem_of_cons. auto.
      * right. exists j. split; [done|]. f_equal. lia.
Qed.

Lemma registrationEvents_imap cs : forall n,
  registrationEvents n cs
  = concat (imap (fun i c => registrationSteps c (instanceAt (n + i) c)) cs).
Proof.
  induction cs as [|c rest IH]; intros n; [done|].
  cbn [registrationEvents imap concat]. rewrite Nat.add_0_r, IH.
  do 2 f_equal. apply imap_ext. intros i x _. simpl. do 2 f_equal. lia.
Qed.

End Registration.

Lemma registeredLayers_routeOf cs : forall n n',
  routeOf <$> registeredLayers n cs = routeOf <$> registeredLayers n' cs.
Proof.
  induction cs as [|c rest IH]; intros n n'; [done|].
  cbn [registeredLayers]. rewrite !fmap_app. f_equal; [|apply IH].
  rewrite <- !list_fmap_compose. reflexivity.
Qed.

Lemma Properties_new_run file lg w :
  exists p rest,
    Properties_new file lg w =
      (Ok p,
       {| files := files w; unavailable := unavailable w;
          next_oid := next_oid w; apps := apps w;
          servers := servers w; cache := cache w;
          trace := trace w ++ EvNewProperties file lg :: rest |})
    /\ match files w !! file with
       | Some (JsonObject props) => entries p = props /\ rest = []
       | Some (Malformed text) =>
           entries p = ∅ /\ rest = [EvLog lg warn (Caught (SyntaxError text))]
       | None => entries p = ∅ /\ rest = [EvLog lg warn (Caught (ENOENT file))]
       end.
Proof.
  unfold Properties_new, try_catch, readFileSync, JSON_parse, Console_warn, throw.
  step. destruct (files w !! file) as [[text|props]|]; simpl.
  - exists {| entries := ∅ |}, [EvLog lg warn (Caught (SyntaxError text))].
    by rewrite <- app_assoc.
  - by exists {| entries := props |}, [].
  - exists {| entries := ∅ |}, [EvLog lg warn (Caught (ENOENT file))].
    by rewrite <- app_assoc.
Qed.

Lemma Application_new_run cfg w :
  exists p rest,
    Application_new cfg w =
      (Ok (next_oid w),
       {| files := files w; unavailable := unavailable w; next_oid := S (next_oid w);
          apps := <[next_oid w :=
                      {| app := {| middleware := [] |};
                         router := {| stack := [] |};
                         controllers := default_param [] (cfg_controllers cfg);
                         properties := p;
                         logger := default_param console (cfg_logger cfg);
                         server := None |}]> (apps w);
          servers := servers w; cache := cache w;
          trace := trace w
                   ++ [ EvNewKoa; EvNewAppRouter;
                        EvNewProperties
                          (default_param "/haru.config.json" (cfg_propertiesPath cfg))
                          (default_param console (cfg_logger cfg)) ]
                   ++ rest |})
    /\ (rest = []
        \/ exists e, rest = [EvLog (default_param console (cfg_logger cfg)) warn (Caught e)]).
Proof.
  unfold Application_new, Koa_new, AppRouter_new. step.
  match goal with
  | |- context [Properties_new ?f ?l ?w0] =>
      destruct (Properties_new_run f l w0) as (p & rest & -> & Hrest)
  end.
  exists p, rest. simpl. rewrite <- !app_assoc. split; [done|].
  simpl in Hrest.
  destruct (files w !! default_param "/haru.config.json" (cfg_propertiesPath cfg))
    as [[text|props]|]; destruct Hrest as [_ ->]; eauto.
Qed.

Lemma close_idle this self w :
  apps w !! this = Some self ->
  server self = None ->
  close this w = (Ok None, w).
Proof.
  intros Hthis Hsrv. unfold close. step. by rewrite Hthis, Hsrv.
Qed.

Lemma close_started this self srv s w :
  apps w !! this = Some self ->
  server self = Some srv ->
  servers w !! srv = Some s ->
  close this w =
    (Ok (Some srv),
     {| files := files w; unavailable := releasePort (unavailable w) s;
        next_oid := next_oid w; apps := apps w;
        servers := <[srv := {| port := port s; listening := false;
                               failure := failure s |}]> (servers w);
        cache := cache w;
        trace := trace w ++ [EvServerClose srv] |}).
Proof.
  intros Hthis Hsrv Hs. unfold close, Server_close. step.
  rewrite Hthis, Hsrv, Hs. step_listen. reflexivity.
Qed.

(** What the host's [listen] does, case by case. *)
Lemma bindPort_free table z :
  (1 <= z <= 65535)%Z -> table !! z = None ->
  bindPort table (Num z)
  = inr ({| port := Num z; listening := true; failure := None |},
         <[z := EADDRINUSE z]> table).
Proof.
  intros Hz Hfree. unfold bindPort, validPort.
  assert ((0 <=? z)%Z && (z <=? 65535)%Z = true) as -> by lia.
  assert ((z =? 0)%Z = false) as -> by lia.
  by rewrite Hfree.
Qed.

Lemma bindPort_taken table z e :
  (1 <= z <= 65535)%Z -> table !! z = Some e ->
  bindPort table (Num z)
  = inr ({| port := Num z; listening := false; failure := Some e |}, table).
Proof.
  intros Hz Htaken. unfold bindPort, validPort.
  assert ((0 <=? z)%Z && (z <=? 65535)%Z = true) as -> by lia.
  assert ((z =? 0)%Z = false) as -> by lia.
  by rewrite Htaken.
Qed.

Lemma bindPort_invalid table p :
  validPort p = false -> bindPort table p = inl (ERR_SOCKET_BAD_PORT p).
Proof. intros Hbad. destruct p as [|z]; [done|]. unfold bindPort. by rewrite Hbad. Qed.

Lemma bindPort_valid table p :
  validPort p = true ->
  exists s table', bindPort table p = inr (s, table') /\ port s = p.
Proof.
  intros Hok. destruct p as [|z]; [done|]. unfold bindPort. rewrite Hok.
  destruct (z =? 0)%Z; [eauto|]. destruct (table !! z); eauto.
Qed.

Lemma bindPort_inr table p s table' :
  bindPort table p = inr (s, table') -> validPort p = true /\ port s = p.
Proof.
  destruct p as [|z]; [done|]. unfold bindPort.
  destruct (validPort (Num z)); [|done].
  destruct (z =? 0)%Z; [by intros [= <- <-]|].
  destruct (table !! z); by intros [= <- <-].
Qed.

Lemma bindPort_inl table p e :
  bindPort table p = inl e -> validPort p = false /\ e = ERR_SOCKET_BAD_PORT p.
Proof.
  destruct p as [|z]; [by intros [= <-]|]. unfold bindPort.
  destruct (validPort (Num z)); [|by intros [= <-]].
  destruct (z =? 0)%Z; [done|]. by destruct (table !! z).
Qed.

(** ** The instance cache after [initialize] *)




(** ** The port [start] hands to [listen] *)

Lemma usedPortOf_effectivePort self port :
  usedPortOf self port = effectivePort (Properties_get (properties self) "port") port.
Proof.
  unfold usedPortOf, getPortFromProperties, effectivePort.
  destruct (Properties_get (properties self) "port") as [[|c s]|]; reflexivity.
Qed.


Lemma start_passes this self port w :
  apps w !! this = Some self ->
  passesToListen this port w (usedPortOf self port).
Proof.
  intros Hthis. unfold passesToListen, newCalls.
  rewrite (start_run _ _ _ _ Hthis).
  destruct (bindPort _ _) as [e | [s table]];
    eexists _, _, (next_oid w); (split; [reflexivity|]);
    intros q srv; cbn [trace rejected started]; rewrite drop_app_length;
    rewrite !elem_of_cons, elem_of_nil; split.
  - intros [?|[?|[?|[]]]]; by simplify_eq.
  - intros [-> ->]. auto.
  - intros [?|[?|[?|[?|[]]]]]; by simplify_eq.
  - intros [-> ->]. auto.
Qed.

Lemma passesToListen_unique this self port w p :
  apps w !! this = Some self ->
  passesToListen this port w p ->
  p = usedPortOf self port.
Proof.
  intros Hthis (o1 & w1 & srv1 & Hrun1 & Hcalls1).
  destruct (start_passes _ _ port _ Hthis) as (o2 & w2 & srv2 & Hrun2 & Hcalls2).
  rewrite Hrun1 in Hrun2. simplify_eq.
  assert (EvListen p srv1 ∈ newCalls w w2) as Hin by by apply Hcalls1.
  by apply Hcalls2 in Hin as [-> _].
Qed.

Lemma start_resolves_free this self port w z :
  apps w !! this = Some self ->
  usedPortOf self port = Num z ->
  freePort w z ->
  start this port w
  = (Ok (Resolved tt),
     started this self port {| port := Num z; listening := true; failure := None |}
       (<[z := EADDRINUSE z]> (unavailable w)) w).
Proof.
  intros Hthis Hp [Hz Hfree]. rewrite (start_run _ _ _ _ Hthis), Hp.
  by rewrite (bindPort_free _ _ Hz Hfree).
Qed.

Lemma start_binds_free this self port w z :
  apps w !! this = Some self ->
  usedPortOf self port = Num z ->
  freePort w z ->
  binds this port w (Num z).
Proof.
  intros Hthis Hp Hfree. eexists _, (next_oid w).
  split; [by apply (start_resolves_free _ _ _ _ _ Hthis Hp Hfree)|].
  split; [split|].
  - simpl. by rewrite lookup_insert_eq.
  - simpl. by rewrite lookup_insert_eq.
  - unfold newCalls. cbn [trace started]. rewrite drop_app_length, Hp, !elem_of_cons.
    auto.
Qed.

Lemma start_rejects_invalid this self port w :
  apps w !! this = Some self ->
  validPort (usedPortOf self port) = false ->
  start this port w
  = (Ok (Rejected (ERR_SOCKET_BAD_PORT (usedPortOf self port))),
     rejected this self port w).
Proof.
  intros Hthis Hbad. rewrite (start_run _ _ _ _ Hthis).
  by rewrite (bindPort_invalid _ _ Hbad).
Qed.

Lemma binds_unique this self port w p :
  apps w !! this = Some self ->
  binds this port w p ->
  p = usedPortOf self port.
Proof.
  intros Hthis (w' & srv & Hrun & _ & Hin).
  apply (passesToListen_unique _ _ _ _ _ Hthis).
  destruct (start_passes _ _ port _ Hthis) as (o2 & w2 & srv2 & Hrun2 & Hcalls2).
  rewrite Hrun in Hrun2. simplify_eq.
  apply Hcalls2 in Hin as [-> ->]. exists (Resolved tt), w2, srv2. by split.
Qed.

(** C2, as amended: [start(port)] on an existing application calls
    [listen] exactly once, with the property [port] parsed as an integer
    when that property is present and not the empty string, and with the
    argument (8080 when it is left out) otherwise; when that value is a
    port from 1 to 65535 that the host is ready to bind, [start] resolves
    with the server listening on it.  In particular the port is 8080 when there is
    neither property nor argument, and 9191 when the property is the
    string 9191, whatever the argument. *)
Theorem start_binds_effective_port this self port w :
  apps w !! this = Some self ->
  let p := effectivePort (Properties_get (properties self) "port") port in
  passesToListen this port w p
  /\ (forall z, p = Num z -> freePort w z -> binds this port w p)
  /\ (Properties_get (properties self) "port" = None -> port = None ->
      passesToListen this port w (Num 8080%Z)
      /\ (freePort w 8080%Z -> binds this port w (Num 8080%Z)))
  /\ (Properties_get (properties self) "port" = Some "9191" ->
      passesToListen this port w (Num 9191%Z)
      /\ (freePort w 9191%Z -> binds this port w (Num 9191%Z))).
Proof.
  intros Hthis p.
  pose proof (start_passes _ _ port _ Hthis) as Hpass.
  pose proof (usedPortOf_effectivePort self port) as Hp. fold p in Hp.
  rewrite Hp in Hpass.
  assert (forall z, p = Num z -> freePort w z -> binds this port w p) as Hbind.
  { intros z Hz Hfree. rewrite Hz. apply (start_binds_free _ _ _ _ _ Hthis); [|done].
    by rewrite Hp. }
  split; [exact Hpass|]. split; [exact Hbind|]. split.
  - intros Hnone ->. assert (p = Num 8080%Z) as Hz by (unfold p; by rewrite Hnone).
    rewrite <- Hz. split; [exact Hpass|]. intros Hfree. by apply (Hbind 8080%Z).
  - intros Hsome. assert (p = Num 9191%Z) as Hz by (unfold p; by rewrite Hsome).
    rewrite <- Hz. split; [exact Hpass|]. intros Hfree. by apply (Hbind 9191%Z).
Qed.

Lemma freePort_worldOf a z : (1 <= z <= 65535)%Z -> freePort (worldOf a) z.
Proof. intros Hz. split; [exact Hz|]. apply lookup_empty. Qed.

Lemma start_binds_effective_port_witness :
  binds 0 (Some (Num 3000%Z)) (worldOf demoApp) (Num 9191%Z)
  /\ binds 0 None (worldOf plainApp) (Num 8080%Z).
Proof.
  split.
  - apply (start_binds_effective_port 0 demoApp (Some (Num 3000%Z)) (worldOf demoApp)
             eq_refl); [reflexivity|]. apply freePort_worldOf. lia.
  - apply (start_binds_effective_port 0 plainApp None (worldOf plainApp) eq_refl);
      [reflexivity | reflexivity |]. apply freePort_worldOf. lia.
Defined.

(** C2, as stated, fails: with the property [port] present and equal to
    the empty string, [start(3000)] hands 3000 to [listen] and binds it,
    not the result of parsing the property. *)
Lemma empty_port_property_is_not_parsed :
  Properties_get (properties blankPortApp) "port" = Some ""
  /\ binds 0 (Some (Num 3000%Z)) (worldOf blankPortApp) (Num 3000%Z)
  /\ ~ binds 0 (Some (Num 3000%Z)) (worldOf blankPortApp) (parseInt "" 10)
  /\ ~ passesToListen 0 (Some (Num 3000%Z)) (worldOf blankPortApp) (parseInt "" 10).
Proof.
  split; [reflexivity|]. split; [|split].
  - apply (start_binds_free 0 blankPortApp); [reflexivity | reflexivity |].
    apply freePort_worldOf. lia.
  - intros Hb. apply (binds_unique 0 blankPortApp) in Hb; [|reflexivity].
    vm_compute in Hb. discriminate.
  - intros Hb. apply (passesToListen_unique 0 blankPortApp) in Hb; [|reflexivity].
    vm_compute in Hb. discriminate.
Qed.

(** C10: when the property [port] is the empty string, [start(port)] hands
    the argument (8080 when it is left out) to [listen]; when it is a
    non-empty string that [parseInt] does not read as an integer,
    [start(port)] hands [NaN] to [listen], whatever the argument; the host
    refuses it, so that [start] rejects, stores no server and logs
    nothing. *)
Theorem start_port_property_edge_cases this self port w :
  apps w !! this = Some self ->
  (Properties_get (properties self) "port" = Some "" ->
   passesToListen this port w (default_param (Num 8080%Z) port)
   /\ forall z, default_param (Num 8080%Z) port = Num z -> freePort w z ->
                binds this port w (Num z))
  /\ (forall s, Properties_get (properties self) "port" = Some s ->
        s <> "" -> parseInt s 10 = NaN ->
        passesToListen this port w NaN
        /\ (forall p, passesToListen this port w p -> p = NaN)
        /\ exists w',
             start this port w = (Ok (Rejected (ERR_SOCKET_BAD_PORT NaN)), w')
             /\ server <$> apps w' !! this = Some (server self)
             /\ servers w' = servers w
             /\ logged (newCalls w w') = []).
Proof.
  intros Hthis. pose proof (start_passes _ _ port _ Hthis) as Hpass. split.
  - intros Hempty.
    assert (usedPortOf self port = default_param (Num 8080%Z) port) as Hp.
    { unfold usedPortOf, getPortFromProperties. by rewrite Hempty. }
    rewrite Hp in Hpass. split; [exact Hpass|].
    intros z Hz Hfree. apply (start_binds_free _ _ _ _ _ Hthis); [|done].
    by rewrite Hp.
  - intros s Hs Hne Hnan.
    assert (usedPortOf self port = NaN) as Hp.
    { unfold usedPortOf, getPortFromProperties. rewrite Hs.
      destruct s; [done|]. simpl. exact Hnan. }
    rewrite Hp in Hpass. split; [exact Hpass|]. split.
    + intros p Hp'. by rewrite (passesToListen_unique _ _ _ _ _ Hthis Hp').
    + exists (rejected this self port w).
      split; [rewrite <- Hp; apply (start_rejects_invalid _ _ _ _ Hthis); by rewrite Hp|].
      split; [simpl; by rewrite lookup_insert_eq|]. split; [reflexivity|].
      unfold newCalls. cbn [trace rejected]. by rewrite drop_app_length.
Qed.

Lemma start_port_property_edge_cases_witness :
  passesToListen 0 (Some (Num 3000%Z)) (worldOf blankPortApp) (Num 3000%Z)
  /\ passesToListen 0 (Some (Num 3000%Z)) (worldOf wordPortApp) NaN.
Proof.
  split.
  - exact (proj1 (proj1 (start_port_property_edge_cases 0 blankPortApp
                           (Some (Num 3000%Z)) (worldOf blankPortApp) eq_refl)
                    eq_refl)).
  - apply (proj2 (start_port_property_edge_cases 0 wordPortApp (Some (Num 3000%Z))
                    (worldOf wordPortApp) eq_refl) "http");
      [reflexivity|discriminate|reflexivity].
Defined.

(** ** [start] and [close] *)

(** C7: every call of [start] on an existing application, whether it
    resolves or rejects, calls in this order [use(routes())],
    [use(allowedMethods())] and then [listen]; nothing precedes them and
    only the start-up message can follow; the two middleware end up last,
    in that order, in the HTTP app's middleware list. *)
Theorem start_mounts_before_listening this self port w :
  apps w !! this = Some self ->
  exists outcome w' self' p srv rest,
    start this port w = (Ok outcome, w')
    /\ trace w' = trace w
                  ++ [ EvUse (AppRouter_routes (router self));
                       EvUse (AppRouter_allowedMethods (router self));
                       EvListen p srv ]
                  ++ rest
    /\ (rest = [] \/ exists msg, rest = [EvLog (logger self) info msg])
    /\ apps w' !! this = Some self'
    /\ middleware (app self')
       = middleware (app self) ++ [routesMiddleware; allowedMethodsMiddleware].
Proof.
  intros Hthis. rewrite (start_run _ _ _ _ Hthis).
  destruct (bindPort _ _) as [e | [s table]].
  - exists (Rejected e), (rejected this self port w), (mountedOnly self),
      (usedPortOf self port), (next_oid w), [].
    split; [reflexivity|]. split; [by rewrite app_nil_r|]. split; [by left|].
    split; [simpl; apply lookup_insert_eq | reflexivity].
  - exists (Resolved tt), (started this self port s table w),
      (mounted self (next_oid w)), (usedPortOf self port), (next_oid w).
    eexists. split; [reflexivity|]. split; [reflexivity|]. split; [right; eauto|].
    split; [simpl; apply lookup_insert_eq | reflexivity].
Qed.

Lemma start_mounts_before_listening_witness :
  exists outcome w' self' p srv rest,
    start 0 None (worldOf wordPortApp) = (Ok outcome, w')
    /\ trace w' = [ EvUse routesMiddleware; EvUse allowedMethodsMiddleware;
                    EvListen p srv ] ++ rest
    /\ (rest = [] \/ exists msg, rest = [EvLog console info msg])
    /\ apps w' !! 0 = Some self'
    /\ middleware (app self') = [routesMiddleware; allowedMethodsMiddleware].
Proof.
  exact (start_mounts_before_listening 0 wordPortApp None (worldOf wordPortApp) eq_refl).
Defined.

Lemma Application_new_idle cfg w :
  exists this w' self,
    Application_new cfg w = (Ok this, w')
    /\ apps w' !! this = Some self
    /\ server self = None.
Proof.
  destruct (Application_new_run cfg w) as (p & rest & Hrun & _).
  eexists _, _, _. split; [exact Hrun|]. split.
  - simpl. apply lookup_insert_eq.
  - reflexivity.
Qed.

Lemma start_resolved_inv this self port w w1 :
  apps w !! this = Some self ->
  start this port w = (Ok (Resolved tt), w1) ->
  exists s table,
    bindPort (unavailable w) (usedPortOf self port) = inr (s, table)
    /\ w1 = started this self port s table w.
Proof.
  intros Hthis Hrun. rewrite (start_run _ _ _ _ Hthis) in Hrun.
  destruct (bindPort _ _) as [e | [s table]]; [discriminate|].
  simplify_eq. eauto.
Qed.

Lemma start_rejected_inv this self port w e w1 :
  apps w !! this = Some self ->
  start this port w = (Ok (Rejected e), w1) ->
  w1 = rejected this self port w
  /\ e = ERR_SOCKET_BAD_PORT (usedPortOf self port)
  /\ validPort (usedPortOf self port) = false.
Proof.
  intros Hthis Hrun. rewrite (start_run _ _ _ _ Hthis) in Hrun.
  destruct (bindPort _ _) as [e' | [s table]] eqn:Hbind; [|discriminate].
  simplify_eq. by destruct (bindPort_inl _ _ _ Hbind) as [? ->].
Qed.

Lemma started_self this self port s table w :
  apps (started this self port s table w) !! this = Some (mounted self (next_oid w)).
Proof. simpl. apply lookup_insert_eq. Qed.

Lemma started_server this self port s table w :
  servers (started this self port s table w) !! next_oid w = Some s.
Proof. simpl. apply lookup_insert_eq. Qed.

Lemma releasePort_listening table s z :
  port s = Num z -> listening s = true -> z <> 0%Z ->
  releasePort table s !! z = None.
Proof.
  intros Hp Hl Hz. unfold releasePort. rewrite Hp, Hl.
  assert ((z =? 0)%Z = false) as -> by lia. simpl. apply lookup_delete_eq.
Qed.

(** C3: when [start()] has resolved, [close()] returns the handle of the
    server that [start] opened and stored, leaves that server not
    listening and its port released; [start] does so resolve, with the
    server listening, on every port from 1 to 65535 that the host is ready
    to bind.
    [close()] on an application whose [server] field was never set, which
    is how the constructor, [initialize] and a rejected [start] leave it,
    returns [undefined], throws nothing and changes nothing. *)
Theorem close_after_and_before_start :
  (forall this self w arg w1,
      apps w !! this = Some self ->
      start this arg w = (Ok (Resolved tt), w1) ->
      exists srv s w2,
        server <$> apps w1 !! this = Some (Some srv)
        /\ servers w1 !! srv = Some s
        /\ port s = usedPortOf self arg
        /\ close this w1 = (Ok (Some srv), w2)
        /\ servers w2 !! srv
           = Some {| port := port s; listening := false; failure := failure s |}
        /\ EvServerClose srv ∈ newCalls w1 w2
        /\ (forall z, port s = Num z -> listening s = true -> z <> 0%Z ->
                      unavailable w2 !! z = None))
  /\ (forall this self w arg z,
        apps w !! this = Some self ->
        usedPortOf self arg = Num z ->
        freePort w z ->
        exists w1 srv,
          start this arg w = (Ok (Resolved tt), w1)
          /\ listensOn this w1 srv (Num z))
  /\ (forall this self w,
        apps w !! this = Some self ->
        server self = None ->
        close this w = (Ok None, w))
  /\ (forall cfg w,
        exists this w1 w2,
          Application_new cfg w = (Ok this, w1)
          /\ close this w1 = (Ok None, w1)
          /\ initialize this w1 = (Ok this, w2)
          /\ close this w2 = (Ok None, w2))
  /\ (forall this self w arg e w1,
        apps w !! this = Some self ->
        server self = None ->
        start this arg w = (Ok (Rejected e), w1) ->
        close this w1 = (Ok None, w1)).
Proof.
  split; [|split; [|split; [|split]]].
  - intros this self w arg w1 Hthis Hrun.
    destruct (start_resolved_inv _ _ _ _ _ Hthis Hrun) as (s & table & Hbind & ->).
    destruct (bindPort_inr _ _ _ _ Hbind) as [_ Hport].
    pose proof (close_started _ _ _ _ _ (started_self this self arg s table w)
                  eq_refl (started_server this self arg s table w)) as Hclose.
    eexists (next_oid w), s, _.
    split; [by rewrite started_self|].
    split; [apply started_server|]. split; [exact Hport|].
    split; [exact Hclose|]. split; [|split].
    + cbn [servers]. apply lookup_insert_eq.
    + unfold newCalls. cbn [trace]. rewrite drop_app_length.
      apply elem_of_cons. by left.
    + intros z Hz Hl Hne. cbn [unavailable]. by apply (releasePort_listening _ _ z).
  - intros this self w arg z Hthis Hp Hfree.
    destruct (start_binds_free _ _ _ _ _ Hthis Hp Hfree) as (w1 & srv & Hrun & Hl & _).
    eauto.
  - intros this self w Hthis Hnone. by apply (close_idle _ self).
  - intros cfg w.
    destruct (Application_new_idle cfg w) as (this & w1 & self & Hnew & Hself & Hnone).
    exists this, w1, (initialized this self w1).
    split; [exact Hnew|].
    split; [by apply (close_idle _ self)|].
    split; [by apply initialize_run|].
    eapply close_idle; [simpl; apply lookup_insert_eq | exact Hnone].
  - intros this self w arg e w1 Hthis Hnone Hrun.
    destruct (start_rejected_inv _ _ _ _ _ _ Hthis Hrun) as (-> & _ & _).
    eapply close_idle; [simpl; apply lookup_insert_eq | exact Hnone].
Qed.

Lemma close_after_and_before_start_witness :
  (exists w1 srv w2,
      start 0 None (worldOf demoApp) = (Ok (Resolved tt), w1)
      /\ listensOn 0 w1 srv (Num 9191%Z)
      /\ close 0 w1 = (Ok (Some srv), w2)
      /\ servers w2 !! srv
         = Some {| port := Num 9191%Z; listening := false; failure := None |}
      /\ unavailable w2 !! 9191%Z = None)
  /\ close 0 (worldOf demoApp) = (Ok None, worldOf demoApp).
Proof.
  destruct close_after_and_before_start as (Hafter & Hstart & Hbefore & _).
  split.
  - destruct (Hstart 0 demoApp (worldOf demoApp) None 9191%Z eq_refl eq_refl)
      as (w1 & srv & Hrun & Hl).
    { apply freePort_worldOf. lia. }
    destruct (Hafter 0 demoApp (worldOf demoApp) None w1 eq_refl Hrun)
      as (srv' & s & w2 & Hsrv & Hs & _ & Hclose & Hdown & _ & Hfree).
    destruct Hl as [Hsrv2 Hs2]. rewrite Hsrv2 in Hsrv. injection Hsrv as <-.
    rewrite Hs2 in Hs. injection Hs as <-.
    exists w1, srv, w2. split; [exact Hrun|]. split; [by split|].
    split; [exact Hclose|]. split; [exact Hdown|].
    apply (Hfree 9191%Z); [reflexivity | reflexivity | lia].
  - apply (Hbefore 0 demoApp (worldOf demoApp)); reflexivity.
Defined.

(** ** [initialize] *)

(** C4: [initialize] on an existing application succeeds and handles the
    configured classes in list order; for each class it makes, in this
    order, the calls: read the metadata from the class's prototype,
    instantiate the class, [configureEndpoints] with the metadata's routes,
    the new instance and the metadata's base path, and [set] of the
    instance in the instance cache under the class's name. *)
Theorem initialize_call_order this self w :
  apps w !! this = Some self ->
  exists w',
    initialize this w = (Ok this, w')
    /\ trace w' =
         trace w
         ++ concat
              (imap (fun i c =>
                       let inst := instanceAt (next_oid w + i) c in
                       let meta := readMetadata (prototype c) in
                       [ EvGetControllerMetadata (prototype c);
                         EvNew c inst;
                         EvConfigureEndpoints (routes meta) inst (basePath meta);
                         EvCacheSet (name (prototype c)) inst ])
                    (controllers self)).
Proof.
  intros Hthis. exists (initialized this self w).
  split; [by apply initialize_run|].
  simpl. by rewrite registrationEvents_imap.
Qed.

Lemma initialize_call_order_witness :
  exists w',
    initialize 0 (worldOf plainApp) = (Ok 0, w')
    /\ trace w' =
         [ EvGetControllerMetadata (prototype UserController);
           EvNew UserController (instanceAt 1 UserController);
           EvConfigureEndpoints
             (routes (readMetadata (prototype UserController)))
             (instanceAt 1 UserController) "/users";
           EvCacheSet (Some "UserController") (instanceAt 1 UserController) ].
Proof.
  exact (initialize_call_order 0 plainApp (worldOf plainApp) eq_refl).
Defined.

(** C5: whatever [initialize] returns is the reference it was called on,
    and on an existing application it does return; so
    [initialize().start()] runs [start] on that same application. *)
Theorem initialize_returns_this this w :
  (forall r w', initialize this w = (Ok r, w') -> r = this)
  /\ (forall self, apps w !! this = Some self ->
        exists w', initialize this w = (Ok this, w')
                   /\ is_Some (apps w' !! this)
                   /\ launch this w = start this None w').
Proof.
  split.
  - intros r w' Hrun. unfold initialize, bind, get_app, ret in Hrun.
    destruct (apps w !! this) as [self|]; [|discriminate].
    destruct (forEach (controllers self) (registerController this) w) as [[[]|e] w1];
      by simplify_eq.
  - intros self Hthis. exists (initialized this self w).
    split; [by apply initialize_run|]. split.
    + simpl. rewrite lookup_insert_eq. by eexists.
    + unfold launch, bind. by rewrite (initialize_run _ _ _ Hthis).
Qed.

Lemma initialize_returns_this_witness :
  exists w', initialize 0 (worldOf demoApp) = (Ok 0, w')
             /\ is_Some (apps w' !! 0)
             /\ launch 0 (worldOf demoApp) = start 0 None w'.
Proof.
  exact (proj2 (initialize_returns_this 0 (worldOf demoApp)) demoApp eq_refl).
Defined.

(** C6: a second [initialize] on the same application succeeds and does
    the whole registration again: it makes the same calls for every
    configured class with a newly created instance, so the router's stack
    ends with the same routes twice, bound to different instances; with at
    least one configured class the second call changes the process. *)
Theorem initialize_twice_registers_twice this self w :
  apps w !! this = Some self ->
  let cs := controllers self in
  let n := next_oid w in
  exists w1 w2 self2,
    initialize this w = (Ok this, w1)
    /\ initialize this w1 = (Ok this, w2)
    /\ trace w1 = trace w ++ registrationEvents n cs
    /\ trace w2 = trace w1 ++ registrationEvents (n + length cs) cs
    /\ apps w2 !! this = Some self2
    /\ stack (router self2)
       = stack (router self)
         ++ registeredLayers n cs ++ registeredLayers (n + length cs) cs
    /\ routeOf <$> registeredLayers (n + length cs) cs
       = routeOf <$> registeredLayers n cs
    /\ (forall i c, cs !! i = Some c ->
          EvNew c (instanceAt (n + i) c) ∈ registrationEvents n cs
          /\ EvNew c (instanceAt (n + length cs + i) c)
               ∈ registrationEvents (n + length cs) cs
          /\ instanceAt (n + length cs + i) c <> instanceAt (n + i) c)
    /\ (cs <> [] -> w2 <> w1).
Proof.
  intros Hthis cs n.
  set (self1 := set_router
                  {| stack := stack (router self) ++ registeredLayers n cs |} self).
  assert (apps (initialized this self w) !! this = Some self1) as Hthis1
    by (simpl; apply lookup_insert_eq).
  exists (initialized this self w), (initialized this self1 (initialized this self w)).
  exists (set_router
            {| stack := stack (router self1)
                        ++ registeredLayers (n + length cs) cs |} self1).
  split; [by apply initialize_run|].
  split; [by apply initialize_run|].
  split; [reflexivity|]. split; [reflexivity|].
  split; [simpl; apply lookup_insert_eq|].
  split; [simpl; by rewrite <- app_assoc|].
  split; [apply registeredLayers_routeOf|].
  split.
  - intros i c Hi. split; [|split].
    + apply registrationEvents_new. by exists i.
    + apply registrationEvents_new. by exists i.
    + intros Heq. apply (f_equal oid) in Heq. simpl in Heq.
      apply lookup_lt_Some in Hi. lia.
  - intros Hne Heq. apply (f_equal next_oid) in Heq. simpl in Heq.
    assert (0 < length cs) by (subst cs; destruct (controllers self); [done | simpl; lia]).
    subst cs. lia.
Qed.

Lemma initialize_twice_registers_twice_witness :
  exists w1 w2 self2,
    initialize 0 (worldOf plainApp) = (Ok 0, w1)
    /\ initialize 0 w1 = (Ok 0, w2)
    /\ apps w2 !! 0 = Some self2
    /\ length (stack (router self2)) = 4
    /\ w2 <> w1.
Proof.
  destruct (initialize_twice_registers_twice 0 plainApp (worldOf plainApp) eq_refl)
    as (w1 & w2 & self2 & Hfirst & Hsecond & _ & _ & Hself2 & Hstack & _ & _ & Hchanged).
  exists w1, w2, self2. repeat split; try assumption.
  - rewrite Hstack. reflexivity.
  - apply Hchanged. discriminate.
Defined.

(** ** Construction *)

(** C8: the constructor always succeeds; it builds the [Properties] loader
    exactly once, with the path [/haru.config.json] when [propertiesPath]
    is left out (with the given path otherwise) and with the logger the
    application keeps; the controller list is empty when [controllers] is
    left out, and the logger is [console] when [logger] is left out. *)
Theorem constructor_defaults cfg w :
  exists this w' self,
    Application_new cfg w = (Ok this, w')
    /\ apps w' !! this = Some self
    /\ (forall file lg,
          EvNewProperties file lg ∈ drop (length (trace w)) (trace w') <->
          file = default_param "/haru.config.json" (cfg_propertiesPath cfg)
          /\ lg = logger self)
    /\ (cfg_propertiesPath cfg = None ->
        EvNewProperties "/haru.config.json" (logger self)
          ∈ drop (length (trace w)) (trace w'))
    /\ (cfg_controllers cfg = None -> controllers self = [])
    /\ (cfg_logger cfg = None -> logger self = console)
    /\ (forall cs, cfg_controllers cfg = Some cs -> controllers self = cs)
    /\ (forall lg, cfg_logger cfg = Some lg -> logger self = lg).
Proof.
  destruct (Application_new_run cfg w) as (p & rest & Hrun & Hrest).
  eexists _, _, _. split; [exact Hrun|].
  split; [simpl; apply lookup_insert_eq|].
  cbn [trace logger controllers]. rewrite drop_app_length.
  split; [|split; [|split; [|split; [|split]]]].
  - intros file lg. rewrite elem_of_app, !elem_of_cons, elem_of_nil. split.
    + intros [[?|[?|[Heq|[]]]] | Hin]; try discriminate.
      * by simplify_eq.
      * destruct Hrest as [-> | [e ->]]; [by apply elem_of_nil in Hin|].
        rewrite elem_of_cons, elem_of_nil in Hin. by destruct Hin as [?|[]].
    + intros [-> ->]. auto.
  - intros ->. rewrite elem_of_app, !elem_of_cons. auto.
  - by intros ->.
  - by intros ->.
  - by intros cs ->.
  - by intros lg ->.
Qed.

Lemma constructor_defaults_witness :
  exists this w' self,
    Application_new
      {| cfg_propertiesPath := None; cfg_controllers := None; cfg_logger := None |}
      emptyWorld = (Ok this, w')
    /\ apps w' !! this = Some self
    /\ EvNewProperties "/haru.config.json" (logger self) ∈ trace w'
    /\ controllers self = []
    /\ logger self = console.
Proof.
  destruct (constructor_defaults
              {| cfg_propertiesPath := None; cfg_controllers := None;
                 cfg_logger := None |} emptyWorld)
    as (this & w' & self & Hrun & Hself & _ & Hpath & Hcs & Hlg & _).
  exists this, w', self. repeat split; try assumption.
  - rewrite <- (drop_0 (trace w')). apply Hpath. reflexivity.
  - apply Hcs. reflexivity.
  - apply Hlg. reflexivity.
Defined.

(** C9: when the configured file is missing or is not JSON, building the
    [Properties] loader does not throw; it logs one warning on the logger
    it was given, the property set is empty, and [get] of every key, in
    particular of [port], is [undefined]. *)
Theorem properties_fail_open file lg w :
  files w !! file = None \/ (exists text, files w !! file = Some (Malformed text)) ->
  exists p w' cause,
    Properties_new file lg w = (Ok p, w')
    /\ trace w' = trace w ++ [EvNewProperties file lg; EvLog lg warn (Caught cause)]
    /\ entries p = ∅
    /\ (forall key, Properties_get p key = None)
    /\ Properties_get p "port" = None.
Proof.
  intros Hfile.
  destruct (Properties_new_run file lg w) as (p & rest & Hrun & Hcase).
  assert (entries p = ∅ /\ exists cause, rest = [EvLog lg warn (Caught cause)])
    as [Hempty [cause ->]].
  { destruct Hfile as [Hnone | [text Hbad]].
    - rewrite Hnone in Hcase. destruct Hcase. eauto.
    - rewrite Hbad in Hcase. destruct Hcase. eauto. }
  eexists p, _, cause. split; [exact Hrun|]. split; [reflexivity|].
  split; [exact Hempty|].
  unfold Properties_get. rewrite Hempty. split; [intros key|]; apply lookup_empty.
Qed.

Lemma properties_fail_open_witness :
  exists p w' cause,
    Properties_new "/haru.config.json" console emptyWorld = (Ok p, w')
    /\ trace w' = [ EvNewProperties "/haru.config.json" console;
                    EvLog console warn (Caught cause) ]
    /\ entries p = ∅
    /\ (forall key, Properties_get p key = None)
    /\ Properties_get p "port" = None.
Proof.
  apply (properties_fail_open "/haru.config.json" console emptyWorld).
  left. reflexivity.
Defined.


(** * Further properties *)

(** ** [parseInt] and the printed port *)

Lemma digitValue_pretty_N_char (d : N) :
  (d < 10)%N -> digitValue (pretty_N_char d) = Some (Z.of_N d).
Proof.
  intros Hd.
  assert (d = 0 \/ d = 1 \/ d = 2 \/ d = 3 \/ d = 4 \/ d = 5 \/ d = 6 \/ d = 7
          \/ d = 8 \/ d = 9)%N as Hcases by lia.
  repeat (destruct Hcases as [-> | Hcases]; [reflexivity|]). by subst.
Qed.

Lemma radixDigits_not_digit s :
  startsWithDigit s = false -> radixDigits 10 s = [].
Proof.
  destruct s as [|c rest]; [done|]. simpl.
  destruct (digitValue c) as [d|]; [|done]. by intros ->.
Qed.

Lemma radixDigits_pretty_N_go x : forall s,
  exists ds,
    radixDigits 10 (pretty_N_go x s) = ds ++ radixDigits 10 s
    /\ (forall acc, fold_left (fun acc d => 10 * acc + d)%Z ds acc
                    = (acc * 10 ^ Z.of_nat (length ds) + Z.of_N x)%Z)
    /\ ((0 < x)%N -> ds <> []).
Proof.
  induction (N.lt_wf_0 x) as [x _ IH]; intros s.
  destruct (decide (x = 0)%N) as [-> | Hpos].
  - exists []. rewrite pretty_N_go_0. repeat split; [|lia].
    intros acc. simpl. lia.
  - rewrite pretty_N_go_step by lia.
    destruct (IH (x `div` 10)%N ltac:(apply N.div_lt; lia)
                (String (pretty_N_char (x `mod` 10)) s)) as (ds & Hds & Hfold & _).
    exists (ds ++ [Z.of_N (x `mod` 10)]).
    split; [|split].
    + rewrite Hds. cbn [radixDigits].
      rewrite digitValue_pretty_N_char by (apply N.mod_lt; lia).
      assert ((Z.of_N (x `mod` 10) <? 10)%Z = true) as ->.
      { apply Z.ltb_lt. pose proof (N.mod_lt x 10). lia. }
      by rewrite <- app_assoc.
    + intros acc. rewrite fold_left_app, Hfold. cbn [fold_left].
      rewrite length_app, Nat2Z.inj_add, Z.pow_add_r by lia. cbn [length].
      rewrite N2Z.inj_div, N2Z.inj_mod.
      pose proof (Z.div_mod (Z.of_N x) 10 ltac:(lia)). change (Z.of_N 10) with 10%Z.
      change (10 ^ Z.of_nat 1)%Z with 10%Z. lia.
    + intros _. by destruct ds.
Qed.

Lemma pretty_N_go_append x : forall s t,
  pretty_N_go x s +:+ t = pretty_N_go x (s +:+ t).
Proof.
  induction (N.lt_wf_0 x) as [x _ IH]; intros s t.
  destruct (decide (x = 0)%N) as [-> | Hpos].
  - by rewrite !pretty_N_go_0.
  - rewrite !(pretty_N_go_step x) by lia. by rewrite IH by (apply N.div_lt; lia).
Qed.

Lemma digit_is_plain c d rest :
  digitValue c = Some d -> (d <? 10)%Z = true ->
  isWhiteSpace c = false /\ stripSign (String c rest) = (1%Z, String c rest).
Proof.
  destruct c as [[] [] [] [] [] [] [] []]; vm_compute; intros Hd Hlt;
    try discriminate; simplify_eq; try discriminate; done.
Qed.

Lemma trimStart_allWhiteSpace ws s :
  allWhiteSpace ws = true -> trimStart (ws +:+ s) = trimStart s.
Proof.
  induction ws as [|c ws IH]; [done|]. simpl.
  intros [Hc Hws]%andb_true_iff. rewrite Hc. by apply IH.
Qed.

(** The digits of a positive number, followed by text that does not start
    with a digit, are read back as that number. *)
Lemma parseInt_magnitude (x : N) junk :
  (0 < x)%N -> startsWithDigit junk = false ->
  exists c rest ds,
    pretty_N_go x "" +:+ junk = String c rest
    /\ isWhiteSpace c = false
    /\ stripSign (String c rest) = (1%Z, String c rest)
    /\ radixDigits 10 (String c rest) = ds
    /\ ds <> []
    /\ mathInt 10 ds = Z.of_N x.
Proof.
  intros Hpos Hjunk. rewrite pretty_N_go_append. simpl.
  destruct (radixDigits_pretty_N_go x junk) as (ds & Hds & Hfold & Hne).
  rewrite (radixDigits_not_digit _ Hjunk), app_nil_r in Hds.
  specialize (Hne Hpos).
  destruct (pretty_N_go x junk) as [|c rest] eqn:Hstr.
  { simpl in Hds. by subst. }
  assert (exists d, digitValue c = Some d /\ (d <? 10)%Z = true) as (d & Hd & Hlt).
  { cbn [radixDigits] in Hds. destruct (digitValue c) as [d|]; [|by subst].
    exists d. split; [done|]. destruct (d <? 10)%Z; [done|by subst]. }
  destruct (digit_is_plain c d rest Hd Hlt) as [Hws Hsign].
  exists c, rest, ds. repeat split; try done.
  unfold mathInt. rewrite Hfold. lia.
Qed.

Lemma pretty_Z_pos p : pretty (Z.pos p) = pretty_N_go (N.pos p) "".
Proof. reflexivity. Qed.

Lemma pretty_Z_neg p : pretty (Z.neg p) = "-" +:+ pretty_N_go (N.pos p) "".
Proof. reflexivity. Qed.

Lemma parseInt_10_digits input sign str ds :
  stripSign (trimStart input) = (sign, str) ->
  radixDigits 10 str = ds -> ds <> [] ->
  parseInt input 10 = Num (sign * mathInt 10 ds).
Proof.
  intros Hsign Hds Hne. unfold parseInt. rewrite Hsign.
  change ((10 =? 0)%Z || (2 <=? 10)%Z && (10 <=? 36)%Z) with true.
  change ((10 =? 0)%Z || (10 =? 16)%Z) with false.
  cbv beta iota zeta. change (10 =? 0)%Z with false. cbv iota.
  rewrite Hds. by destruct ds.
Qed.

Lemma trimStart_plain c rest :
  isWhiteSpace c = false -> trimStart (String c rest) = String c rest.
Proof. intros Hc. simpl. by rewrite Hc. Qed.

Lemma parseInt_pretty (z : Z) ws junk :
  allWhiteSpace ws = true ->
  startsWithDigit junk = false ->
  parseInt (ws +:+ pretty z +:+ junk) 10 = Num z.
Proof.
  intros Hws Hjunk.
  destruct z as [|p|p].
  - change (pretty 0%Z) with "0".
    rewrite (parseInt_10_digits _ 1 (String "0" junk) [0%Z]); [done| |  |done].
    + by rewrite (trimStart_allWhiteSpace _ _ Hws).
    + cbn [radixDigits]. change (digitValue "0") with (Some 0%Z). simpl.
      by rewrite (radixDigits_not_digit _ Hjunk).
  - rewrite pretty_Z_pos.
    destruct (parseInt_magnitude (N.pos p) junk ltac:(lia) Hjunk)
      as (c & rest & ds & Hstr & Hplain & Hsign & Hds & Hne & Hval).
    rewrite (parseInt_10_digits _ 1 (String c rest) ds); [f_equal; lia| |done..].
    by rewrite (trimStart_allWhiteSpace _ _ Hws), Hstr, (trimStart_plain _ _ Hplain).
  - rewrite pretty_Z_neg.
    destruct (parseInt_magnitude (N.pos p) junk ltac:(lia) Hjunk)
      as (c & rest & ds & Hstr & Hplain & Hsign & Hds & Hne & Hval).
    rewrite (parseInt_10_digits _ (-1) (String c rest) ds); [f_equal; lia| |done..].
    rewrite (trimStart_allWhiteSpace _ _ Hws).
    change (("-" +:+ pretty_N_go (N.pos p) "") +:+ junk)
      with (String "-" (pretty_N_go (N.pos p) "" +:+ junk)).
    by rewrite Hstr.
Qed.

Lemma append_empty_r (s : string) : s +:+ "" = s.
Proof.
  induction s as [|c s IH]; [done|].
  change (String c (s +:+ "") = String c s). by rewrite IH.
Qed.

(** X1: [parseInt(s, 10)] reads back every integer a number holds exactly
    from its decimal rendering, also when white space precedes it and text
    that does not start with a digit follows it. *)
Theorem parseInt_reads_decimal (z : Z) ws junk :
  safeInteger z ->
  allWhiteSpace ws = true ->
  startsWithDigit junk = false ->
  parseInt (ws +:+ pretty z +:+ junk) 10 = Num z.
Proof. intros _. apply parseInt_pretty. Qed.

Lemma parseInt_reads_decimal_witness :
  parseInt (" " +:+ pretty 8080%Z +:+ "/tcp") 10 = Num 8080%Z.
Proof.
  apply (parseInt_reads_decimal 8080%Z " " "/tcp");
    [unfold safeInteger; lia | reflexivity | reflexivity].
Defined.

(** X2: the port printed in the start-up message, parsed the way the port
    property is parsed, is the port again: [parseInt] of the printed text
    of [NaN] or of an exactly held integer gives the number back. *)
Theorem parseInt_Number_toString (n : JSNumber) :
  match n with NaN => True | Num z => safeInteger z end ->
  parseInt (Number_toString n) 10 = n.
Proof.
  intros _. destruct n as [|z]; [reflexivity|]. unfold Number_toString.
  pose proof (parseInt_pretty z "" "" eq_refl eq_refl) as Hread.
  simpl in Hread. by rewrite append_empty_r in Hread.
Qed.

Lemma parseInt_Number_toString_witness :
  parseInt (Number_toString (Num 9191%Z)) 10 = Num 9191%Z
  /\ parseInt (Number_toString NaN) 10 = NaN.
Proof.
  split.
  - apply (parseInt_Number_toString (Num 9191%Z)). unfold safeInteger. lia.
  - apply (parseInt_Number_toString NaN). exact I.
Defined.


(** ** The port property as [start] reads it *)

Lemma usedPortOf_parsed self port s z :
  Properties_get (properties self) "port" = Some s ->
  parseInt s 10 = Num z ->
  usedPortOf self port = Num z.
Proof.
  intros Hs Hparse. unfold usedPortOf, getPortFromProperties. rewrite Hs.
  destruct s as [|c s]; [discriminate|]. simpl. by rewrite Hparse.
Qed.

(** X3: [start] itself does not validate the port property: whenever the
    property is the decimal rendering of an exactly held integer, negative
    or above 65535 included, possibly after white space and before text
    that does not start with a digit, that integer is what [listen]
    receives, whatever the argument of [start].  A port from 1 to 65535
    that the host is ready to bind is then bound; an integer outside 0 to
    65535 is refused by [listen], so that [start] rejects and stores no
    server. *)
Theorem start_reads_numeric_port this self port w (z : Z) ws junk :
  apps w !! this = Some self ->
  Properties_get (properties self) "port" = Some (ws +:+ pretty z +:+ junk) ->
  safeInteger z ->
  allWhiteSpace ws = true ->
  startsWithDigit junk = false ->
  passesToListen this port w (Num z)
  /\ (freePort w z -> binds this port w (Num z))
  /\ (validPort (Num z) = false ->
      exists w',
        start this port w = (Ok (Rejected (ERR_SOCKET_BAD_PORT (Num z))), w')
        /\ server <$> apps w' !! this = Some (server self)
        /\ servers w' = servers w).
Proof.
  intros Hthis Hs _ Hws Hjunk.
  assert (usedPortOf self port = Num z) as Hp
    by (apply (usedPortOf_parsed _ _ _ _ Hs); by apply parseInt_pretty).
  split; [|split].
  - rewrite <- Hp. by apply start_passes.
  - intros Hfree. by apply (start_binds_free _ _ _ _ _ Hthis Hp).
  - intros Hbad. exists (rejected this self port w). split; [|split].
    + rewrite <- Hp. apply (start_rejects_invalid _ _ _ _ Hthis). by rewrite Hp.
    + simpl. by rewrite lookup_insert_eq.
    + reflexivity.
Qed.

Lemma start_reads_numeric_port_witness :
  passesToListen 0 (Some (Num 3000%Z))
    (worldOf (constructed [] {[ "port" := " -70000/tcp" ]})) (Num (-70000)%Z)
  /\ exists w',
       start 0 (Some (Num 3000%Z))
         (worldOf (constructed [] {[ "port" := " -70000/tcp" ]}))
       = (Ok (Rejected (ERR_SOCKET_BAD_PORT (Num (-70000)%Z))), w')
       /\ server <$> apps w' !! 0 = Some None
       /\ servers w' = ∅.
Proof.
  destruct (start_reads_numeric_port 0 (constructed [] {[ "port" := " -70000/tcp" ]})
              (Some (Num 3000%Z))
              (worldOf (constructed [] {[ "port" := " -70000/tcp" ]}))
              (-70000)%Z " " "/tcp")
    as (Hpass & _ & Hreject);
    [reflexivity | reflexivity | unfold safeInteger; lia | reflexivity | reflexivity |].
  split; [exact Hpass|]. apply Hreject. reflexivity.
Defined.


(** ** The start-up message *)

Lemma join_nil_inv sep (l : list string) :
  (forall x, x ∈ l -> x <> "") -> join sep l = "" -> l = [].
Proof.
  destruct l as [|x [|y rest]]; [done| |]; intros Hne Hjoin; exfalso.
  - apply (Hne x); [apply elem_of_cons; by left | exact Hjoin].
  - apply (Hne x); [apply elem_of_cons; by left|].
    simpl in Hjoin. by destruct x.
Qed.

(** X4: the route dump is the empty string exactly when the router has no
    entry. *)
Theorem getAvailableRoutes_empty_iff (self : Application) :
  getAvailableRoutes self = "" <-> stack (router self) = [].
Proof.
  unfold getAvailableRoutes, AppRouter_stack. split.
  - intros Hjoin. apply join_nil_inv in Hjoin.
    + by destruct (stack (router self)).
    + intros x Hx. apply list_elem_of_In, in_map_iff in Hx.
      destruct Hx as (route & <- & _). discriminate.
  - by intros ->.
Qed.


(** X5: [start] logs at most once: when it resolves, the calls it made
    contain exactly one log message, an [info] on the application's own
    logger, made last, whose text is the fixed greeting followed by the
    port handed to [listen], a space, a line break and the route dump of
    the application; when it rejects it has logged nothing.  The message
    is logged also when the host did not bind the port and the server is
    not listening. *)
Theorem start_logs_once this self port w :
  apps w !! this = Some self ->
  exists outcome w',
    start this port w = (Ok outcome, w')
    /\ passesToListen this port w (usedPortOf self port)
    /\ logged (newCalls w w')
       = match outcome with
         | Resolved _ =>
             [ (logger self, info,
                Text ("Haru App started @ http://localhost:"
                      +:+ Number_toString (usedPortOf self port) +:+ " " +:+ LF
                      +:+ getAvailableRoutes self)) ]
         | Rejected _ => []
         end
    /\ (forall done, outcome = Resolved done ->
          exists lg lvl msg, last (trace w') = Some (EvLog lg lvl msg))
    /\ (forall z, usedPortOf self port = Num z -> (1 <= z <= 65535)%Z ->
                  is_Some (unavailable w !! z) ->
                  outcome = Resolved tt
                  /\ forall srv, ~ listensOn this w' srv (Num z)).
Proof.
  intros Hthis. pose proof (start_passes _ _ port _ Hthis) as Hpass.
  rewrite (start_run _ _ _ _ Hthis).
  destruct (bindPort _ _) as [e | [s table]] eqn:Hbind.
  - exists (Rejected e), (rejected this self port w).
    split; [reflexivity|]. split; [exact Hpass|]. split; [|split].
    + unfold newCalls. cbn [trace rejected]. by rewrite drop_app_length.
    + by intros done.
    + intros z Hz Hrange [e' Htaken].
      rewrite Hz, (bindPort_taken _ _ _ Hrange Htaken) in Hbind. discriminate.
  - exists (Resolved tt), (started this self port s table w).
    split; [reflexivity|]. split; [exact Hpass|]. split; [|split].
    + unfold newCalls. cbn [trace started]. by rewrite drop_app_length.
    + intros [] _. cbn [trace started]. rewrite last_app. simpl. eauto.
    + intros z Hz Hrange [e' Htaken]. split; [reflexivity|].
      rewrite Hz, (bindPort_taken _ _ _ Hrange Htaken) in Hbind. simplify_eq.
      intros srv [Hsrv Hlisten]. rewrite started_self in Hsrv. simplify_eq/=.
      rewrite lookup_insert_eq in Hlisten. discriminate.
Qed.

Lemma start_logs_once_witness :
  exists outcome w',
    start 0 None (busyWorldOf plainApp) = (Ok outcome, w')
    /\ logged (newCalls (busyWorldOf plainApp) w')
       = [ (console, info,
            Text ("Haru App started @ http://localhost:8080 " +:+ LF +:+ "")) ]
    /\ outcome = Resolved tt
    /\ forall srv, ~ listensOn 0 w' srv (Num 8080%Z).
Proof.
  destruct (start_logs_once 0 plainApp None (busyWorldOf plainApp) eq_refl)
    as (outcome & w' & Hrun & _ & Hlog & _ & Hbusy).
  destruct (Hbusy 8080%Z eq_refl ltac:(lia)) as [-> Hdown].
  { exists (EADDRINUSE 8080%Z). reflexivity. }
  exists (Resolved tt), w'. split; [exact Hrun|]. split; [exact Hlog|].
  split; [reflexivity | exact Hdown].
Defined.


(** ** What the methods leave alone *)

Lemma registrationEvents_only n cs e :
  e ∈ registrationEvents n cs -> isRegistrationEvent e = true.
Proof.
  revert n. induction cs as [|c rest IH]; intros n; cbn [registrationEvents].
  - by intros ?%elem_of_nil.
  - unfold registrationSteps. rewrite elem_of_app, !elem_of_cons, elem_of_nil.
    intros [[->|[->|[->|[->|[]]]]] | Hin]; try reflexivity. by apply (IH (S n)).
Qed.

(** X6: [initialize] only registers: it makes no call other than the four
    registration calls, it leaves the disk, every server and every other
    application as they were, and in the application itself it changes
    nothing but the router; in particular it mounts no middleware and
    opens no socket. *)
Theorem initialize_only_registers this self w :
  apps w !! this = Some self ->
  exists w' self',
    initialize this w = (Ok this, w')
    /\ apps w' !! this = Some self'
    /\ files w' = files w
    /\ servers w' = servers w
    /\ (forall other, other <> this -> apps w' !! other = apps w !! other)
    /\ app self' = app self
    /\ controllers self' = controllers self
    /\ properties self' = properties self
    /\ logger self' = logger self
    /\ server self' = server self
    /\ (forall e, e ∈ drop (length (trace w)) (trace w') ->
                  isRegistrationEvent e = true).
Proof.
  intros Hthis. exists (initialized this self w). eexists.
  split; [by apply initialize_run|].
  split; [simpl; apply lookup_insert_eq|].
  repeat split.
  - intros other Hne. simpl. by rewrite lookup_insert_ne.
  - intros e. simpl. rewrite drop_app_length. apply registrationEvents_only.
Qed.

Lemma initialize_only_registers_witness :
  exists w' self',
    initialize 0 (worldOf demoApp) = (Ok 0, w')
    /\ apps w' !! 0 = Some self'
    /\ files w' = ∅
    /\ servers w' = ∅
    /\ (forall other, other <> 0 -> apps w' !! other = apps (worldOf demoApp) !! other)
    /\ app self' = app demoApp
    /\ controllers self' = controllers demoApp
    /\ properties self' = properties demoApp
    /\ logger self' = console
    /\ server self' = None
    /\ (forall e, e ∈ drop 0 (trace w') -> isRegistrationEvent e = true).
Proof.
  exact (initialize_only_registers 0 demoApp (worldOf demoApp) eq_refl).
Defined.


(** X7: [start] registers nothing, whether it resolves or rejects: it
    leaves the instance cache, the disk and every other application as
    they were and makes none of the registration calls; in the application
    itself routes, controllers, properties and logger stay.  When it
    rejects, the stored server and all servers are as before; when it
    resolves, a server is stored and every server with another handle is
    as before. *)
Theorem start_registers_nothing this self port w :
  apps w !! this = Some self ->
  exists outcome w' self',
    start this port w = (Ok outcome, w')
    /\ apps w' !! this = Some self'
    /\ cache w' = cache w
    /\ files w' = files w
    /\ (forall other, other <> this -> apps w' !! other = apps w !! other)
    /\ router self' = router self
    /\ controllers self' = controllers self
    /\ properties self' = properties self
    /\ logger self' = logger self
    /\ (forall e, e ∈ newCalls w w' -> isRegistrationEvent e = false)
    /\ match outcome with
       | Rejected _ => server self' = server self /\ servers w' = servers w
       | Resolved _ =>
           exists srv,
             server self' = Some srv
             /\ forall other, other <> srv -> servers w' !! other = servers w !! other
       end.
Proof.
  intros Hthis. rewrite (start_run _ _ _ _ Hthis).
  destruct (bindPort _ _) as [e | [s table]].
  - exists (Rejected e), (rejected this self port w), (mountedOnly self).
    split; [reflexivity|]. split; [simpl; apply lookup_insert_eq|].
    do 2 (split; [reflexivity|]). split.
    { intros other Hne. simpl. by rewrite lookup_insert_ne. }
    do 4 (split; [reflexivity|]). split; [|done].
    intros e'. unfold newCalls. cbn [trace rejected].
    rewrite drop_app_length, !elem_of_cons, elem_of_nil.
    by intros [->|[->|[->|[]]]].
  - exists (Resolved tt), (started this self port s table w),
      (mounted self (next_oid w)).
    split; [reflexivity|]. split; [simpl; apply lookup_insert_eq|].
    do 2 (split; [reflexivity|]). split.
    { intros other Hne. simpl. by rewrite lookup_insert_ne. }
    do 4 (split; [reflexivity|]). split.
    + intros e'. unfold newCalls. cbn [trace started].
      rewrite drop_app_length, !elem_of_cons, elem_of_nil.
      by intros [->|[->|[->|[->|[]]]]].
    + exists (next_oid w). split; [reflexivity|].
      intros other Hne. simpl. by rewrite lookup_insert_ne.
Qed.

Lemma start_registers_nothing_witness :
  exists outcome w' self',
    start 0 None (worldOf wordPortApp) = (Ok outcome, w')
    /\ apps w' !! 0 = Some self'
    /\ cache w' = ∅
    /\ router self' = router wordPortApp
    /\ forall e, e ∈ newCalls (worldOf wordPortApp) w' -> isRegistrationEvent e = false.
Proof.
  destruct (start_registers_nothing 0 wordPortApp None (worldOf wordPortApp) eq_refl)
    as (outcome & w' & self' & Hrun & Hself & Hcache & _ & _ & Hrouter & _ & _ & _
        & Hcalls & _).
  exists outcome, w', self'. by repeat split.
Defined.

(** ** Sequences of [start] and [close] *)

(** X8: [close] keeps the stored server: when [start] has resolved, a
    second [close] returns the same handle again, not [undefined]; the
    server is not listening after the first [close] and the second changes
    neither the servers, nor the host's port table, nor the application. *)
Theorem close_twice_returns_same_server this self arg w w1 :
  apps w !! this = Some self ->
  start this arg w = (Ok (Resolved tt), w1) ->
  exists w2 w3 srv s,
    close this w1 = (Ok (Some srv), w2)
    /\ close this w2 = (Ok (Some srv), w3)
    /\ servers w2 !! srv = Some s
    /\ listening s = false
    /\ servers w3 = servers w2
    /\ unavailable w3 = unavailable w2
    /\ apps w3 = apps w1.
Proof.
  intros Hthis Hrun.
  destruct (start_resolved_inv _ _ _ _ _ Hthis Hrun) as (s & table & _ & ->).
  pose proof (close_started _ _ _ _ _ (started_self this self arg s table w) eq_refl
                (started_server this self arg s table w)) as Hclose1.
  eexists _, _, (next_oid w), _.
  split; [exact Hclose1|].
  split; [|split; [|split; [|split; [|split]]]].
  - eapply close_started; [apply started_self | reflexivity |].
    cbn [servers]. apply lookup_insert_eq.
  - cbn [servers]. apply lookup_insert_eq.
  - reflexivity.
  - simpl. by rewrite insert_insert_eq.
  - simpl. unfold releasePort. simpl. by destruct (port s).
  - reflexivity.
Qed.

Lemma close_twice_returns_same_server_witness :
  exists w1 w2 w3 srv s,
    start 0 None (worldOf demoApp) = (Ok (Resolved tt), w1)
    /\ close 0 w1 = (Ok (Some srv), w2)
    /\ close 0 w2 = (Ok (Some srv), w3)
    /\ servers w2 !! srv = Some s
    /\ listening s = false
    /\ servers w3 = servers w2
    /\ unavailable w3 = unavailable w2
    /\ apps w3 = apps w1.
Proof.
  eexists.
  destruct (close_twice_returns_same_server 0 demoApp None (worldOf demoApp) _ eq_refl
              (start_resolves_free 0 demoApp None (worldOf demoApp) 9191%Z eq_refl
                 eq_refl (freePort_worldOf demoApp 9191%Z ltac:(lia))))
    as (w2 & w3 & srv & s & Hrest).
  exists w2, w3, srv, s. split; [|exact Hrest].
  exact (start_resolves_free 0 demoApp None (worldOf demoApp) 9191%Z eq_refl
           eq_refl (freePort_worldOf demoApp 9191%Z ltac:(lia))).
Defined.



(** X10: [close] releases the port: after [start] on a port from 1 to
    65535 that the host is ready to bind and
    [close], a new [start] on the same port resolves with a new server
    listening on it under a new handle, which the application stores; the
    old server stays closed. *)
Theorem restart_after_close this self arg1 arg2 w z :
  apps w !! this = Some self ->
  usedPortOf self arg1 = Num z ->
  usedPortOf self arg2 = Num z ->
  freePort w z ->
  exists w1 w2 w3 old fresh,
    start this arg1 w = (Ok (Resolved tt), w1)
    /\ listensOn this w1 old (Num z)
    /\ close this w1 = (Ok (Some old), w2)
    /\ unavailable w2 !! z = None
    /\ start this arg2 w2 = (Ok (Resolved tt), w3)
    /\ listensOn this w3 fresh (Num z)
    /\ fresh <> old
    /\ servers w3 !! old
       = Some {| port := Num z; listening := false; failure := None |}.
Proof.
  intros Hthis Hp1 Hp2 [Hz Hfree].
  pose proof (start_resolves_free _ _ _ _ _ Hthis Hp1 (conj Hz Hfree)) as Hrun1.
  match type of Hrun1 with _ = (_, ?w0) => set (w1 := w0) in * end.
  set (self1 := mounted self (next_oid w)).
  assert (apps w1 !! this = Some self1) as Hthis1 by apply started_self.
  set (s1 := {| port := Num z; listening := true; failure := None |}).
  pose proof (close_started _ _ _ _ _ Hthis1 eq_refl
                (started_server this self arg1 s1
                   (<[z := EADDRINUSE z]> (unavailable w)) w)) as Hclose1.
  fold w1 in Hclose1.
  match type of Hclose1 with _ = (_, ?w0) => set (w2 := w0) in * end.
  assert (apps w2 !! this = Some self1) as Hthis2 by exact Hthis1.
  assert (unavailable w2 !! z = None) as Hfree2.
  { cbn [unavailable w2]. apply (releasePort_listening _ _ z); [reflexivity..|lia]. }
  pose proof (start_resolves_free this self1 arg2 w2 z Hthis2
                Hp2 (conj Hz Hfree2)) as Hrun2.
  eexists w1, w2, _, (next_oid w), (S (next_oid w)).
  split; [exact Hrun1|].
  split; [split; [by rewrite Hthis1 | apply started_server]|].
  split; [exact Hclose1|]. split; [exact Hfree2|].
  split; [exact Hrun2|].
  split; [split|split].
  - by rewrite started_self.
  - apply (started_server this self1 arg2 s1
             (<[z := EADDRINUSE z]> (unavailable w2)) w2).
  - lia.
  - cbn [servers started w2 w1 next_oid]. rewrite lookup_insert_ne by lia.
    apply lookup_insert_eq.
Qed.

Lemma restart_after_close_witness :
  exists w1 w2 w3 old fresh,
    start 0 None (worldOf plainApp) = (Ok (Resolved tt), w1)
    /\ listensOn 0 w1 old (Num 8080%Z)
    /\ close 0 w1 = (Ok (Some old), w2)
    /\ unavailable w2 !! 8080%Z = None
    /\ start 0 None w2 = (Ok (Resolved tt), w3)
    /\ listensOn 0 w3 fresh (Num 8080%Z)
    /\ fresh <> old
    /\ servers w3 !! old
       = Some {| port := Num 8080%Z; listening := false; failure := None |}.
Proof.
  exact (restart_after_close 0 plainApp None None (worldOf plainApp) 8080%Z
           eq_refl eq_refl eq_refl (freePort_worldOf plainApp 8080%Z ltac:(lia))).
Defined.


(** ** The instance cache in general *)

Lemma cachedInstances_last cs : forall n m i c,
  cs !! i = Some c ->
  (forall j c', i < j -> cs !! j = Some c' -> cacheKey c' <> cacheKey c) ->
  cachedInstances n cs m !! cacheKey c = Some (instanceAt (n + i) c).
Proof.
  induction cs as [|c0 rest IH]; intros n m i c Hi Hlast; [done|].
  destruct i as [|i]; cbn [cachedInstances].
  - simplify_eq/=. rewrite cachedInstances_lookup_other.
    + by rewrite lookup_insert_eq, Nat.add_0_r.
    + intros (c' & Heq & Hin)%list_elem_of_fmap.
      apply list_elem_of_lookup in Hin as [j Hj].
      by apply (Hlast (S j) c' ltac:(lia) Hj).
  - rewrite (IH (S n) _ i c Hi).
    + do 2 f_equal. lia.
    + intros j c' Hlt Hj. apply (Hlast (S j) c'); [lia | exact Hj].
Qed.

Lemma cachedInstances_origin cs : forall n m key inst,
  cachedInstances n cs m !! key = Some inst ->
  m !! key = Some inst
  \/ exists i c, cs !! i = Some c /\ cacheKey c = key /\ inst = instanceAt (n + i) c.
Proof.
  induction cs as [|c0 rest IH]; intros n m key inst Hlook; [by left|].
  cbn [cachedInstances] in Hlook.
  destruct (IH _ _ _ _ Hlook) as [Hm | (i & c & Hi & Hkey & ->)].
  - destruct (decide (cacheKey c0 = key)) as [Heq | Hne].
    + rewrite Heq, lookup_insert_eq in Hm. simplify_eq.
      right. exists 0, c0. by rewrite Nat.add_0_r.
    + rewrite lookup_insert_ne in Hm by done. by left.
  - right. exists (S i), c. repeat split; [done..|]. f_equal. lia.
Qed.


(** X11: [initialize] never removes a cache entry and the last write wins.
    The key of a class is the value of [name] on its prototype, [undefined]
    when nothing wrote it: keys that are no configured class's key keep
    their entry, every key present before is present after, and the key of
    a configured class holds the instance made for the last class in the
    list that has that key. *)
Theorem initialize_cache_last_write_wins this self w :
  apps w !! this = Some self ->
  exists w',
    initialize this w = (Ok this, w')
    /\ (forall key, key ∉ cacheKey <$> controllers self ->
                    cache w' !! key = cache w !! key)
    /\ dom (cache w) ⊆ dom (cache w')
    /\ (forall i c,
          controllers self !! i = Some c ->
          (forall j c', i < j -> controllers self !! j = Some c' ->
                        name (prototype c') <> name (prototype c)) ->
          ApplicationCache_get (name (prototype c)) w'
          = (Ok (Some (instanceAt (next_oid w + i) c)), w')).
Proof.
  intros Hthis. exists (initialized this self w).
  split; [by apply initialize_run|]. split; [|split].
  - intros key Hkey. simpl. by apply cachedInstances_lookup_other.
  - simpl. rewrite cachedInstances_dom. apply union_subseteq_l.
  - intros i c Hi Hlast. unfold ApplicationCache_get. simpl.
    by rewrite (cachedInstances_last _ _ _ _ _ Hi Hlast).
Qed.

Lemma initialize_cache_last_write_wins_witness :
  exists w',
    initialize 0 (worldOf bareApp) = (Ok 0, w')
    /\ ApplicationCache_get None w' = (Ok (Some (instanceAt 2 BareHello)), w')
    /\ ApplicationCache_get (Some "BareUser") w' = (Ok None, w').
Proof.
  destruct (initialize_cache_last_write_wins 0 bareApp (worldOf bareApp) eq_refl)
    as (w' & Hrun & Hother & _ & Hlast).
  exists w'. split; [exact Hrun|]. split.
  - apply (Hlast 1 BareHello eq_refl).
    intros [|[|j]] c' Hlt Hj; [lia | lia | discriminate].
  - unfold ApplicationCache_get. rewrite (Hother (Some "BareUser")); [reflexivity|].
    simpl. rewrite !elem_of_cons, elem_of_nil. intros [?|[?|[]]]; discriminate.
Defined.


(** X12: every position of the controller list gets an instance of its
    own, also when the same class is listed twice, and that instance is
    the one handed to the router and to the cache for that position. *)
Theorem initialize_one_instance_per_position this self w :
  apps w !! this = Some self ->
  exists w',
    initialize this w = (Ok this, w')
    /\ next_oid w' = next_oid w + length (controllers self)
    /\ forall i c,
         controllers self !! i = Some c ->
         let inst := instanceAt (next_oid w + i) c in
         let new_calls := drop (length (trace w)) (trace w') in
         EvNew c inst ∈ new_calls
         /\ EvConfigureEndpoints (routes (readMetadata (prototype c))) inst
              (basePath (readMetadata (prototype c))) ∈ new_calls
         /\ (forall j c', controllers self !! j = Some c' -> j <> i ->
                          instanceAt (next_oid w + j) c' <> inst).
Proof.
  intros Hthis. exists (initialized this self w).
  split; [by apply initialize_run|]. split; [reflexivity|].
  intros i c Hi inst new_calls. unfold new_calls. simpl. rewrite drop_app_length.
  split; [|split].
  - apply registrationEvents_new. by exists i.
  - apply registrationEvents_configure. by exists i, c.
  - intros j c' _ Hne Heq. apply (f_equal oid) in Heq. simpl in Heq. lia.
Qed.

Lemma initialize_one_instance_per_position_witness :
  exists w',
    initialize 0 (worldOf (constructed [UserController; UserController] ∅))
    = (Ok 0, w')
    /\ next_oid w' = 3
    /\ EvNew UserController (instanceAt 1 UserController) ∈ trace w'
    /\ EvNew UserController (instanceAt 2 UserController) ∈ trace w'.
Proof.
  destruct (initialize_one_instance_per_position 0
              (constructed [UserController; UserController] ∅)
              (worldOf (constructed [UserController; UserController] ∅)) eq_refl)
    as (w' & Hrun & Hnext & Hpos).
  exists w'. split; [exact Hrun|]. split; [exact Hnext|]. split.
  - apply (Hpos 0 UserController eq_refl).
  - apply (Hpos 1 UserController eq_refl).
Defined.


(** X13: the instance cache is one for the whole process: when two
    applications configure classes with the same key, that is the same
    value of [name] on the prototype or no value on either, initializing
    the second replaces the first one's cache entry, while the first
    application's router keeps the instance it was given and the first
    application is not touched. *)
Theorem cache_is_shared_between_applications this1 this2 app1 app2 w i j c1 c2 :
  this1 <> this2 ->
  apps w !! this1 = Some app1 ->
  apps w !! this2 = Some app2 ->
  controllers app1 !! i = Some c1 ->
  controllers app2 !! j = Some c2 ->
  name (prototype c2) = name (prototype c1) ->
  (forall k c', j < k -> controllers app2 !! k = Some c' ->
                name (prototype c') <> name (prototype c2)) ->
  exists w1 w2,
    initialize this1 w = (Ok this1, w1)
    /\ initialize this2 w1 = (Ok this2, w2)
    /\ EvConfigureEndpoints (routes (readMetadata (prototype c1)))
         (instanceAt (next_oid w + i) c1) (basePath (readMetadata (prototype c1)))
         ∈ drop (length (trace w)) (trace w1)
    /\ ApplicationCache_get (name (prototype c1)) w2
       = (Ok (Some (instanceAt (next_oid w + length (controllers app1) + j) c2)), w2)
    /\ instanceAt (next_oid w + length (controllers app1) + j) c2
       <> instanceAt (next_oid w + i) c1
    /\ apps w2 !! this1 = apps w1 !! this1.
Proof.
  intros Hne Hthis1 Hthis2 Hi Hj Hname Hlast.
  set (w1 := initialized this1 app1 w).
  assert (apps w1 !! this2 = Some app2) as Hthis2'
    by (simpl; by rewrite lookup_insert_ne).
  exists w1, (initialized this2 app2 w1).
  split; [by apply initialize_run|]. split; [by apply initialize_run|].
  split; [|split; [|split]].
  - simpl. rewrite drop_app_length. apply registrationEvents_configure. by exists i, c1.
  - unfold ApplicationCache_get. cbn [cache initialized].
    by rewrite <- Hname, (cachedInstances_last _ _ _ _ _ Hj Hlast).
  - intros Heq. apply (f_equal oid) in Heq. simpl in Heq.
    apply lookup_lt_Some in Hi. lia.
  - cbn [apps initialized]. by rewrite lookup_insert_ne.
Qed.

Lemma cache_is_shared_between_applications_witness :
  exists w1 w2,
    initialize 0 {| files := ∅; unavailable := ∅; next_oid := 2;
                    apps := {[ 0 := constructed [BareUser] ∅;
                               1 := constructed [BareHello] ∅ ]};
                    servers := ∅; cache := ∅; trace := [] |} = (Ok 0, w1)
    /\ initialize 1 w1 = (Ok 1, w2)
    /\ ApplicationCache_get None w2 = (Ok (Some (instanceAt 3 BareHello)), w2)
    /\ instanceAt 3 BareHello <> instanceAt 2 BareUser.
Proof.
  destruct (cache_is_shared_between_applications 0 1
              (constructed [BareUser] ∅) (constructed [BareHello] ∅)
              {| files := ∅; unavailable := ∅; next_oid := 2;
                 apps := {[ 0 := constructed [BareUser] ∅;
                            1 := constructed [BareHello] ∅ ]};
                 servers := ∅; cache := ∅; trace := [] |}
              0 0 BareUser BareHello)
    as (w1 & w2 & Hrun1 & Hrun2 & _ & Hget & Hdiff & _);
    [lia | reflexivity | reflexivity | reflexivity | reflexivity | reflexivity | |].
  - intros [|k] c' Hlt Hk; [lia | discriminate].
  - exists w1, w2. split; [exact Hrun1|]. split; [exact Hrun2|].
    split; [exact Hget | exact Hdiff].
Defined.


(** ** From the configuration file to the socket *)

Lemma Application_new_loaded cfg w :
  let file := default_param "/haru.config.json" (cfg_propertiesPath cfg) in
  let lg := default_param console (cfg_logger cfg) in
  exists warnings,
    Application_new cfg w =
      (Ok (next_oid w),
       {| files := files w; unavailable := unavailable w; next_oid := S (next_oid w);
          apps := <[next_oid w :=
                      {| app := {| middleware := [] |};
                         router := {| stack := [] |};
                         controllers := default_param [] (cfg_controllers cfg);
                         properties := {| entries := configured w file |};
                         logger := lg;
                         server := None |}]> (apps w);
          servers := servers w; cache := cache w;
          trace := trace w
                   ++ [EvNewKoa; EvNewAppRouter; EvNewProperties file lg]
                   ++ warnings |})
    /\ (forall e, e ∈ warnings -> exists cause, e = EvLog lg warn (Caught cause))
    /\ (is_Some (files w !! file) ->
        (forall text, files w !! file <> Some (Malformed text)) ->
        warnings = []).
Proof.
  intros file lg. unfold Application_new, Koa_new, AppRouter_new. step.
  fold file lg.
  match goal with
  | |- context [Properties_new file lg ?w0] =>
      destruct (Properties_new_run file lg w0) as (p & rest & -> & Hrest)
  end.
  simpl in Hrest. exists rest. unfold configured.
  destruct (files w !! file) as [[text|props]|] eqn:Hfile;
    destruct Hrest as [Hp ->]; destruct p as [es]; simpl in Hp; subst es;
    simpl; rewrite <- !app_assoc; (split; [done|]); split.
  - intros e ->%list_elem_of_singleton. eauto.
  - intros _ Hbad. by destruct (Hbad text).
  - by intros e ?%elem_of_nil.
  - done.
  - intros e ->%list_elem_of_singleton. eauto.
  - by intros [? ?].
Qed.

(** X17: what the configuration file says is what the application uses:
    after construction [get(key)] is the file's entry for every key (none
    when the file is missing or is not JSON), and a following [start(port)]
    hands to [listen] the file's [port] entry parsed as an integer when it
    is present and not empty, the argument (8080 by default) otherwise, and
    binds that value when it is a port from 1 to 65535 that the host is
    ready to bind. *)
Theorem configured_port_is_bound cfg port w :
  let file := default_param "/haru.config.json" (cfg_propertiesPath cfg) in
  let p := effectivePort (configured w file !! "port") port in
  exists this w1 self,
    Application_new cfg w = (Ok this, w1)
    /\ apps w1 !! this = Some self
    /\ (forall key, Properties_get (properties self) key = configured w file !! key)
    /\ passesToListen this port w1 p
    /\ (forall z, p = Num z -> freePort w z -> binds this port w1 p).
Proof.
  intros file p. destruct (Application_new_loaded cfg w) as (warnings & Hnew & _).
  match type of Hnew with _ = (_, ?w0) => set (w1 := w0) in * end.
  set (self := {| app := {| middleware := [] |}; router := {| stack := [] |};
                  controllers := default_param [] (cfg_controllers cfg);
                  properties := {| entries := configured w file |};
                  logger := default_param console (cfg_logger cfg);
                  server := None |}) in *.
  assert (apps w1 !! next_oid w = Some self) as Hself
    by (simpl; apply lookup_insert_eq).
  assert (usedPortOf self port = p) as Hp by apply usedPortOf_effectivePort.
  exists (next_oid w), w1, self. split; [exact Hnew|]. split; [exact Hself|].
  split; [done|]. split.
  - rewrite <- Hp. by apply start_passes.
  - intros z Hz Hfree. rewrite Hz.
    apply (start_binds_free _ _ _ _ _ Hself); [by rewrite Hp | exact Hfree].
Qed.

Lemma configured_port_is_bound_witness :
  exists this w1 self,
    Application_new
      {| cfg_propertiesPath := None; cfg_controllers := None; cfg_logger := None |}
      emptyWorld = (Ok this, w1)
    /\ apps w1 !! this = Some self
    /\ binds this None w1 (Num 8080%Z).
Proof.
  destruct (configured_port_is_bound
              {| cfg_propertiesPath := None; cfg_controllers := None;
                 cfg_logger := None |} None emptyWorld)
    as (this & w1 & self & Hnew & Hself & _ & _ & Hbind).
  exists this, w1, self. split; [exact Hnew|]. split; [exact Hself|].
  apply (Hbind 8080%Z); [reflexivity|]. split; [lia | apply lookup_empty].
Defined.




